(** * telegram_card_bot.py: the card extractor and its pending-search map

    A shallow embedding of [src/telegram_card_bot.py].  Python [str] values
    are sequences of Unicode code points, the process-wide dict
    [user_contexts] is a finite map keyed by the Telegram user id, and the
    handlers are state transformers that may raise. *)

From Stdlib Require Import String Ascii NArith ZArith List Sorted Permutation Lia.
From stdpp Require Import base option list sorting gmap pretty.

Open Scope Z_scope.

(** ** Python strings *)

(** A [str] is a sequence of code points; [len], slicing and [startswith]
    all work on code points. *)
Abbreviation str := (list N).

(** The code points of an ASCII literal. *)
Definition lit (s : string) : str :=
  List.map N_of_ascii (list_ascii_of_string s).

Definition LF : N := 10%N.
Definition CR : N := 13%N.

(** [s.startswith(prefix)]. *)
Fixpoint startswith (s prefix : str) {struct prefix} : bool :=
  match prefix with
  | [] => true
  | p :: prefix' =>
      match s with
      | [] => false
      | c :: s' => (c =? p)%N && startswith s' prefix'
      end
  end.

(** [str.splitlines] breaks a line at each of these code points (and at
    the pair CR LF). *)
Definition is_linebreak (c : N) : bool :=
  ((c =? 10) || (c =? 11) || (c =? 12) || (c =? 13) || (c =? 28) ||
   (c =? 29) || (c =? 30) || (c =? 133) || (c =? 8232) || (c =? 8233))%N.

(** The code points [str.strip()] removes. *)
Definition is_space (c : N) : bool :=
  (((9 <=? c) && (c <=? 13)) || ((28 <=? c) && (c <=? 32)) ||
   (c =? 133) || (c =? 160) || (c =? 5760) ||
   ((8192 <=? c) && (c <=? 8202)) || (c =? 8232) || (c =? 8233) ||
   (c =? 8239) || (c =? 8287) || (c =? 12288))%N.

Fixpoint lstrip (s : str) : str :=
  match s with
  | [] => []
  | c :: s' => if is_space c then lstrip s' else s
  end.

Definition rstrip (s : str) : str := reverse (lstrip (reverse s)).

(** [s.strip()]. *)
Definition strip (s : str) : str := rstrip (lstrip s).

(** [s.splitlines()]: [cur] is the line being read.  A final line with no
    terminator is kept unless it is empty. *)
Fixpoint splitlines_from (cur s : str) : list str :=
  match s with
  | [] => match cur with [] => [] | _ => [cur] end
  | c :: rest =>
      if (c =? CR)%N then
        match rest with
        | c' :: rest' =>
            if (c' =? LF)%N then cur :: splitlines_from [] rest'
            else cur :: splitlines_from [] rest
        | [] => cur :: splitlines_from [] rest
        end
      else if is_linebreak c then cur :: splitlines_from [] rest
      else splitlines_from (cur ++ [c]) rest
  end.

Definition splitlines (s : str) : list str := splitlines_from [] s.

(** Reading a file opened with [open(path, 'r')]: CR LF and a lone CR
    arrive as LF. *)
Fixpoint universal_newlines (s : str) : str :=
  match s with
  | [] => []
  | c :: rest =>
      if (c =? CR)%N then
        match rest with
        | c' :: rest' =>
            if (c' =? LF)%N then LF :: universal_newlines rest'
            else LF :: universal_newlines rest
        | [] => LF :: universal_newlines rest
        end
      else c :: universal_newlines rest
  end.

(** ** Results of a call *)

(** A call returns a value or raises an exception, named by its class. *)
Inductive py_result (A : Type) : Type :=
  | Returned (v : A)
  | Raised (exc_class : string).
Arguments Returned {A} v.
Arguments Raised {A} exc_class.

(** ** extract_matching_cards *)

(** [[card for card in card_numbers if card.startswith(prefix)]] *)
Definition extract_matching_cards (card_numbers : list str) (prefix : str)
  : list str :=
  List.filter (fun card => startswith card prefix) card_numbers.

(** The body is a single comprehension over [str.startswith]; nothing in
    it raises, so a call on a list of [str] returns. *)
Definition extract_matching_cards_call (card_numbers : list str)
    (prefix : str) : py_result (list str) :=
  Returned (extract_matching_cards card_numbers prefix).

(** ** The file system *)

(** What a path holds: text, or bytes that are not text in the locale's
    encoding. *)
Inductive file : Type :=
  | Text (t : str)
  | Binary.

(** [open(file_path, 'r')] followed by [file.read()]. *)
Definition open_read (fs : gmap (list N) file) (file_path : str)
  : py_result str :=
  match fs !! file_path with
  | None => Raised "FileNotFoundError"
  | Some Binary => Raised "UnicodeDecodeError"
  | Some (Text t) => Returned (universal_newlines t)
  end.

(** Truth value of a [str]: non-empty. *)
Definition truthy (s : str) : bool :=
  match s with [] => false | _ :: _ => true end.

(** [[card.strip() for card in card_numbers if card.strip()]] *)
Definition stripped_lines (card_numbers : list str) : list str :=
  List.map strip (List.filter (fun card => truthy (strip card)) card_numbers).

(** ** read_card_numbers_from_file *)

(** Only [FileNotFoundError] is caught; it yields the empty list. *)
Definition read_card_numbers_from_file (fs : gmap (list N) file)
    (file_path : str) : py_result (list str) :=
  match open_read fs file_path with
  | Returned text =>
      let card_numbers := splitlines text in
      Returned (stripped_lines card_numbers)
  | Raised e =>
      if String.eqb e "FileNotFoundError" then Returned [] else Raised e
  end.

(** ** stats_command: the prefix analysis *)

(** A dict keeps its keys in insertion order, and [sorted] is stable, so
    the order of [prefix_counts.items()] matters: the dict is an
    association list, a key updated in place or appended. *)
Fixpoint dict_get (d : list (str * nat)) (k : str) (default : nat) : nat :=
  match d with
  | [] => default
  | (k', v) :: d' => if decide (k' = k) then v else dict_get d' k default
  end.

Fixpoint dict_set (d : list (str * nat)) (k : str) (v : nat)
  : list (str * nat) :=
  match d with
  | [] => [(k, v)]
  | (k', v') :: d' =>
      if decide (k' = k) then (k', v) :: d' else (k', v') :: dict_set d' k v
  end.

(** One turn of the loop at lines 114-117. *)
Definition count_card (prefix_counts : list (str * nat)) (card : str)
  : list (str * nat) :=
  if (4 <=? length card)%nat then
    let prefix := take 4 card in
    dict_set prefix_counts prefix (dict_get prefix_counts prefix 0 + 1)%nat
  else prefix_counts.

Definition prefix_counts_upto (cap : nat) (card_numbers : list str)
  : list (str * nat) :=
  fold_left count_card (take cap card_numbers) [].

Definition prefix_counts (card_numbers : list str) : list (str * nat) :=
  prefix_counts_upto 5000 card_numbers.

(** [sorted(items, key=lambda x: x[1], reverse=True)]: a stable sort by
    descending count; items with equal counts keep their order, also under
    [reverse=True].  Insertion from the right is one such sort. *)
Fixpoint insert_by_count (x : str * nat) (l : list (str * nat))
  : list (str * nat) :=
  match l with
  | [] => [x]
  | y :: l' =>
      if (snd y <=? snd x)%nat then x :: y :: l'
      else y :: insert_by_count x l'
  end.

Definition sorted_by_count (items : list (str * nat)) : list (str * nat) :=
  fold_right insert_by_count [] items.

(** [sorted(...)[:k]]; the source takes [k = 10]. *)
Definition top_prefixes_upto (k : nat) (card_numbers : list str)
  : list (str * nat) :=
  take k (sorted_by_count (prefix_counts card_numbers)).

Definition top_prefixes (card_numbers : list str) : list (str * nat) :=
  top_prefixes_upto 10 card_numbers.

Inductive stats_reply : Type :=
  | NoDatabase
  | Statistics (total unique : nat) (top : list (str * nat)).

Definition stats_command (fs : gmap (list N) file) : py_result stats_reply :=
  match read_card_numbers_from_file fs (lit "card_numbers.txt") with
  | Raised e => Raised e
  | Returned [] => Returned NoDatabase
  | Returned card_numbers =>
      Returned (Statistics (length card_numbers)
                  (length (prefix_counts card_numbers))
                  (top_prefixes card_numbers))
  end.

(** ** The handlers' state *)

(** A value of [user_contexts]:
    [{'prefix': prefix, 'waiting_for_file': True}]. *)
Record context : Type := Context {
  prefix : str;
  waiting_for_file : bool
}.

(** The module-level dict [user_contexts] and the working directory. *)
Record state : Type := State {
  user_contexts : gmap Z context;
  files : gmap (list N) file
}.

(** The calls a handler makes to the outside (Telegram, the disk); each
    may raise. *)
Inductive io_point : Type :=
  | ReplyUsage | ReplyPrompt
  | ReplyProcessing | EditNotTxt | EditTooLarge | GetFile | Download
  | EditEmpty | EditNoMatch | WriteResults | SendDocument
  | DeleteProcessing | EditUploaded | EditError.

(** A handler runs on the state and returns or raises; the state survives
    a raise.  One update is handled at a time: a handler runs to its end
    before the next one starts. *)
Definition M (A : Type) : Type := state -> py_result A * state.

Definition ret {A} (a : A) : M A := fun s => (Returned a, s).

Definition raise {A} (e : string) : M A := fun s => (Raised e, s).

Definition bind {A B} (m : M A) (k : A -> M B) : M B :=
  fun s =>
    match m s with
    | (Returned a, s') => k a s'
    | (Raised e, s') => (Raised e, s')
    end.

Instance M_ret : MRet M := @ret.
Instance M_bind : MBind M := fun A B k m => bind m k.

(** [try: m except Exception as e: handler e] *)
Definition try_except {A} (m : M A) (handler : string -> M A) : M A :=
  fun s =>
    match m s with
    | (Returned a, s') => (Returned a, s')
    | (Raised e, s') => handler e s'
    end.

(** An outside call; [fails p] tells whether it raises. *)
Definition external (fails : io_point -> bool) (p : io_point) : M unit :=
  if fails p then raise "TelegramError" else ret tt.

Definition get_contexts : M (gmap Z context) :=
  fun s => (Returned (user_contexts s), s).

(** [user_contexts[user_id] = c] *)
Definition set_context (user_id : Z) (c : context) : M unit :=
  fun s => (Returned tt,
            State (<[user_id := c]> (user_contexts s)) (files s)).

(** [del user_contexts[user_id]] *)
Definition del_context (user_id : Z) : M unit :=
  fun s =>
    match user_contexts s !! user_id with
    | Some _ =>
        (Returned tt, State (delete user_id (user_contexts s)) (files s))
    | None => (Raised "KeyError", s)
    end.

Definition write_file (path : str) (f : file) : M unit :=
  fun s => (Returned tt, State (user_contexts s) (<[path := f]> (files s))).

(** [os.remove(path)] *)
Definition os_remove (path : str) : M unit :=
  fun s =>
    match files s !! path with
    | Some _ => (Returned tt, State (user_contexts s) (delete path (files s)))
    | None => (Raised "FileNotFoundError", s)
    end.

Definition read_cards (path : str) : M (list str) :=
  fun s => (read_card_numbers_from_file (files s) path, s).

(** ** search_cards *)

Inductive search_reply : Type :=
  | MissingPrefix
  | PleaseUpload (prefix : str).

(** [args] is [context.args], the words after the command. *)
Definition search_cards (fails : io_point -> bool) (args : list str)
    (user_id : Z) : M search_reply :=
  match args with
  | [] => external fails ReplyUsage ;; ret MissingPrefix
  | prefix :: _ =>
      set_context user_id (Context prefix true) ;;
      external fails ReplyPrompt ;;
      ret (PleaseUpload prefix)
  end.

(** ** handle_document *)

(** [update.message.document]: Telegram's metadata and the bytes behind
    [file_id]. *)
Record Document : Type := {
  file_name : option str;
  file_size : option Z;
  file_content : file
}.

Inductive document_reply : Type :=
  | NotTxt
  | TooLarge
  | EmptyFile
  | NoMatch (prefix : str) (total : nat)
  | ResultsSent (filename : str) (results : str) (found total : nat)
  | Uploaded (total : nat) (size : Z)
  | ErrorReported (e : string).

(** [f'temp_cards_{user_id}.txt'] *)
Definition temp_file_path (user_id : Z) : str :=
  lit "temp_cards_" ++ lit (pretty user_id) ++ lit ".txt".

(** [f'cards_{prefix}_{len(matching_cards)}_results.txt'] *)
Definition results_filename (prefix : str) (matching_cards : list str) : str :=
  lit "cards_" ++ prefix ++ lit "_" ++
  lit (pretty (Z.of_nat (length matching_cards))) ++ lit "_results.txt".

(** The text written by the loop at lines 221-222: each card and a
    newline (written as LF, the line separator of the host). *)
Definition results_text (matching_cards : list str) : str :=
  concat (List.map (fun card => card ++ [LF]) matching_cards).

(** [s.endswith(suffix)] *)
Definition endswith (s suffix : str) : bool :=
  startswith (reverse s) (reverse suffix).

(** Lines 178-258, the body of the [try]. *)
Definition handle_document_body (fails : io_point -> bool)
    (document : Document) (user_id : Z) : M document_reply :=
  size ← match file_size document with
          | Some n => ret n
          | None => raise "TypeError"
          end;
  if 10 * 1024 * 1024 <? size then
    external fails EditTooLarge ;; ret TooLarge
  else
    external fails GetFile ;;
    external fails Download ;;
    write_file (temp_file_path user_id) (file_content document) ;;
    card_numbers ← read_cards (temp_file_path user_id);
    match card_numbers with
    | [] => external fails EditEmpty ;; ret EmptyFile
    | _ :: _ =>
        contexts ← get_contexts;
        match contexts !! user_id with
        | Some (Context prefix true) =>
            let matching_cards := extract_matching_cards card_numbers prefix in
            match matching_cards with
            | [] =>
                external fails EditNoMatch ;;
                del_context user_id ;;
                ret (NoMatch prefix (length card_numbers))
            | _ :: _ =>
                external fails WriteResults ;;
                write_file (results_filename prefix matching_cards)
                  (Text (results_text matching_cards)) ;;
                external fails SendDocument ;;
                os_remove (results_filename prefix matching_cards) ;;
                os_remove (temp_file_path user_id) ;;
                del_context user_id ;;
                external fails DeleteProcessing ;;
                ret (ResultsSent (results_filename prefix matching_cards)
                       (results_text matching_cards)
                       (length matching_cards) (length card_numbers))
            end
        | _ =>
            external fails EditUploaded ;;
            os_remove (temp_file_path user_id) ;;
            ret (Uploaded (length card_numbers) size)
        end
    end.

(** Lines 260-268, the [except Exception] clause. *)
Definition handle_document_except (fails : io_point -> bool) (user_id : Z)
    (e : string) : M document_reply :=
  external fails EditError ;;
  contexts ← get_contexts;
  match contexts !! user_id with
  | Some _ => del_context user_id ;; ret (ErrorReported e)
  | None => ret (ErrorReported e)
  end.

Definition handle_document (fails : io_point -> bool) (document : Document)
    (user_id : Z) : M document_reply :=
  external fails ReplyProcessing ;;
  name ← match file_name document with
          | Some name => ret name
          | None => raise "AttributeError"
          end;
  if negb (endswith name (lit ".txt")) then
    external fails EditNotTxt ;; ret NotTxt
  else
    try_except (handle_document_body fails document user_id)
      (handle_document_except fails user_id).

(** ** Vocabulary of the properties *)

(** No whitespace at either end. *)
Definition trimmed (s : str) : Prop :=
  (∀ c, head s = Some c → is_space c = false)
  ∧ (∀ c, last s = Some c → is_space c = false).

(** No line boundary inside. *)
Definition one_line (s : str) : Prop :=
  Forall (λ c, is_linebreak c = false) s.

(** What the loader hands out: non-empty trimmed single lines. *)
Definition record (s : str) : Prop :=
  s ≠ [] ∧ trimmed s ∧ one_line s.

(** The prefixes the statistics are about, in reading order: the first four
    code points of each of the first 5000 records that has at least four. *)
Definition analysed_prefixes (card_numbers : list str) : list str :=
  List.map (take 4)
    (List.filter (λ card, (4 <=? length card)%nat) (take 5000 card_numbers)).

(** How often [q] occurs in [l]. *)
Fixpoint occurrences (q : str) (l : list str) : nat :=
  match l with
  | [] => 0
  | x :: l' => ((if decide (x = q) then 1 else 0) + occurrences q l')%nat
  end.

(** Where [q] is first met in [l] ([length l] when it never is). *)
Fixpoint first_index (q : str) (l : list str) : nat :=
  match l with
  | [] => 0
  | x :: l' => if decide (x = q) then 0%nat else S (first_index q l')
  end.

(** [a] is met before [b] in [l]. *)
Definition met_before (l : list str) (a b : str * nat) : Prop :=
  (first_index a.1 l < first_index b.1 l)%nat.

(** [a] ranks before [b]: a larger count, or the same count and [a]
    before [b] in the order given. *)
Definition ranked_by (before : relation (str * nat)) (a b : str * nat)
  : Prop :=
  (b.2 < a.2)%nat ∨ (a.2 = b.2 ∧ before a b).

(** The ranking of the statistics: ties go to the prefix met first. *)
Definition ranks_before (l : list str) : relation (str * nat) :=
  ranked_by (met_before l).

(** Counting one more occurrence of a prefix. *)
Definition count_prefix (d : list (str * nat)) (q : str) : list (str * nat) :=
  dict_set d q (dict_get d q 0 + 1)%nat.

(** A text made of the lines [lines], each followed by the terminator
    [sep]. *)
Definition join_lines (sep : str) (lines : list str) : str :=
  concat (List.map (λ l, l ++ sep) lines).

(** [wp m Q σ]: running [m] from [σ] ends, returning or raising, in a
    result and a state that satisfy [Q]. *)
Definition wp {A} (m : M A) (Q : py_result A → state → Prop) (σ : state)
  : Prop :=
  Q (m σ).1 (m σ).2.

(** * Properties *)

(** ** Prefix filtering *)

Section Filter.
Implicit Types (card p : str) (R : list str).

Lemma startswith_prefix_of card p :
  startswith card p = true ↔ p `prefix_of` card.
Proof.
  revert card. induction p as [|c p IH]; intros card; simpl.
  - split; [intros _; apply prefix_nil | done].
  - destruct card as [|c' card].
    + split; [done | intros H; by destruct (prefix_nil_not _ _ H)].
    + rewrite andb_true_iff, N.eqb_eq, IH. split.
      * intros [-> H]. by apply prefix_cons.
      * intros H. split; [symmetry; by eapply prefix_cons_inv_1
                         | by eapply prefix_cons_inv_2].
Qed.

Lemma startswith_nil card : startswith card [] = true.
Proof. done. Qed.

Lemma extract_matching_cards_elem R p card :
  card ∈ extract_matching_cards R p ↔ card ∈ R ∧ p `prefix_of` card.
Proof.
  unfold extract_matching_cards.
  rewrite !list_elem_of_In, filter_In, startswith_prefix_of.
  done.
Qed.

Lemma extract_matching_cards_sublist R p :
  extract_matching_cards R p `sublist_of` R.
Proof.
  induction R as [|card R IH]; simpl; [constructor|].
  destruct (startswith card p); by constructor.
Qed.

Lemma extract_matching_cards_twice R p :
  extract_matching_cards (extract_matching_cards R p) p
  = extract_matching_cards R p.
Proof.
  induction R as [|card R IH]; simpl; [done|].
  destruct (startswith card p) eqn:E; simpl; [|done].
  by rewrite E, IH.
Qed.

Lemma extract_matching_cards_nil_prefix R :
  extract_matching_cards R [] = R.
Proof.
  induction R as [|card R IH]; simpl; [done|]. by rewrite IH.
Qed.

(** C1: for a non-empty prefix [p], every element of the filtered list
    starts with [p], and the filtered list is a subsequence of the input,
    in the input's order. *)
Theorem extract_matching_cards_prefix_sublist R p :
  p ≠ [] →
  Forall (λ card, p `prefix_of` card) (extract_matching_cards R p)
  ∧ extract_matching_cards R p `sublist_of` R.
Proof.
  intros _. split.
  - apply Forall_forall. intros card H.
    by apply extract_matching_cards_elem in H as [_ H].
  - apply extract_matching_cards_sublist.
Qed.

Lemma extract_matching_cards_prefix_sublist_witness :
  let R := [lit "4000111"; lit "4000222"; lit "5000333"] in
  let p := lit "4000" in
  extract_matching_cards R p = [lit "4000111"; lit "4000222"]
  ∧ Forall (λ card, p `prefix_of` card) (extract_matching_cards R p)
  ∧ extract_matching_cards R p `sublist_of` R.
Proof.
  split; [reflexivity|].
  apply (extract_matching_cards_prefix_sublist
           [lit "4000111"; lit "4000222"; lit "5000333"] (lit "4000")).
  discriminate.
Defined.

(** C8: for a non-empty prefix, filtering a filtered list again changes
    nothing. *)
Theorem extract_matching_cards_idempotent R p :
  p ≠ [] →
  extract_matching_cards (extract_matching_cards R p) p
  = extract_matching_cards R p.
Proof. intros _. apply extract_matching_cards_twice. Qed.

Lemma extract_matching_cards_idempotent_witness :
  let R := [lit "4000111"; lit "5000333"; lit "4000222"] in
  extract_matching_cards (extract_matching_cards R (lit "4000")) (lit "4000")
  = extract_matching_cards R (lit "4000").
Proof.
  apply (extract_matching_cards_idempotent
           [lit "4000111"; lit "5000333"; lit "4000222"] (lit "4000")).
  discriminate.
Defined.

(** C9: with the empty string as prefix the call raises nothing and
    returns the record list itself, since every record starts with the
    empty string. *)
Theorem extract_matching_cards_empty_prefix R :
  extract_matching_cards R [] = R
  ∧ extract_matching_cards_call R [] = Returned R.
Proof.
  unfold extract_matching_cards_call.
  by rewrite extract_matching_cards_nil_prefix.
Qed.

(** C2, as the spec states it, fails: on a one-record list the empty
    prefix is accepted and the list comes back. *)
Lemma empty_prefix_not_rejected :
  [lit "4000111"] ≠ []
  ∧ extract_matching_cards_call [lit "4000111"] [] = Returned [lit "4000111"]
  ∧ extract_matching_cards_call [lit "4000111"] []
    ≠ Raised "InvalidPrefixError".
Proof. repeat split; discriminate. Qed.

(** C2, amended: for every non-empty record list the call with the empty
    prefix returns the whole list; no exception is raised. *)
Theorem empty_prefix_returns_all R :
  R ≠ [] →
  extract_matching_cards_call R [] = Returned R
  ∧ ∀ e, extract_matching_cards_call R [] ≠ Raised e.
Proof.
  intros _. unfold extract_matching_cards_call.
  rewrite extract_matching_cards_nil_prefix. by split.
Qed.

Lemma empty_prefix_returns_all_witness :
  extract_matching_cards_call [lit "4000111"; lit "5000333"] []
  = Returned [lit "4000111"; lit "5000333"]
  ∧ ∀ e, extract_matching_cards_call [lit "4000111"; lit "5000333"] []
         ≠ Raised e.
Proof.
  apply (empty_prefix_returns_all [lit "4000111"; lit "5000333"]).
  discriminate.
Defined.

End Filter.

(** ** Trimming and line splitting *)

Section Strings.
Implicit Types (s cur r l : str) (c : N).

Lemma lstrip_split s :
  ∃ a, s = a ++ lstrip s ∧ Forall (λ c, is_space c = true) a.
Proof.
  induction s as [|c s (a & Hs & Ha)]; simpl.
  - by exists [].
  - destruct (is_space c) eqn:E.
    + exists (c :: a). split; [simpl; congruence | by constructor].
    + by exists [].
Qed.

Lemma lstrip_head s c : head (lstrip s) = Some c → is_space c = false.
Proof.
  induction s as [|c' s IH]; simpl; [done|].
  destruct (is_space c') eqn:E; [done|]. simpl. congruence.
Qed.

Lemma lstrip_fixed s :
  (∀ c, head s = Some c → is_space c = false) → lstrip s = s.
Proof.
  destruct s as [|c s]; simpl; [done|].
  intros H. by rewrite (H c).
Qed.

Lemma lstrip_snoc s c :
  is_space c = false → lstrip (s ++ [c]) = lstrip s ++ [c].
Proof.
  intros Hc. induction s as [|c' s IH]; simpl.
  - by rewrite Hc.
  - by destruct (is_space c').
Qed.

Lemma rstrip_cons c s :
  is_space c = false → rstrip (c :: s) = c :: rstrip s.
Proof.
  intros Hc. unfold rstrip.
  by rewrite reverse_cons, lstrip_snoc, reverse_snoc.
Qed.

Lemma rstrip_split s :
  ∃ b, s = rstrip s ++ b ∧ Forall (λ c, is_space c = true) b.
Proof.
  unfold rstrip. destruct (lstrip_split (reverse s)) as (a & Hs & Ha).
  exists (reverse a). split; [|by apply Forall_reverse].
  rewrite <- reverse_app, <- Hs. by rewrite reverse_involutive.
Qed.

Lemma rstrip_last s c : last (rstrip s) = Some c → is_space c = false.
Proof. unfold rstrip. rewrite last_reverse. apply lstrip_head. Qed.

Lemma rstrip_fixed s :
  (∀ c, last s = Some c → is_space c = false) → rstrip s = s.
Proof.
  intros H. unfold rstrip. rewrite lstrip_fixed.
  - apply reverse_involutive.
  - intros c. rewrite head_reverse. apply H.
Qed.

Lemma strip_trimmed s : trimmed (strip s).
Proof.
  unfold strip. split; [|apply rstrip_last].
  intros c. pose proof (lstrip_head s) as Hh.
  destruct (lstrip s) as [|c' u]; [done|].
  rewrite rstrip_cons by (by apply Hh). simpl. intros [= <-]. by apply Hh.
Qed.

Lemma strip_split s :
  ∃ a b, s = a ++ strip s ++ b
         ∧ Forall (λ c, is_space c = true) a
         ∧ Forall (λ c, is_space c = true) b.
Proof.
  destruct (lstrip_split s) as (a & Hs & Ha).
  destruct (rstrip_split (lstrip s)) as (b & Hu & Hb).
  exists a, b. unfold strip. by rewrite <- Hu.
Qed.

Lemma strip_fixed s : trimmed s → strip s = s.
Proof.
  intros [Hh Hl]. unfold strip. rewrite (lstrip_fixed s Hh).
  by apply rstrip_fixed.
Qed.

Lemma strip_one_line s : one_line s → one_line (strip s).
Proof.
  unfold one_line. destruct (strip_split s) as (a & b & Hs & _).
  intros H. rewrite Hs in H.
  apply Forall_app in H as [_ H]. by apply Forall_app in H as [H _].
Qed.

Lemma truthy_nonempty s : truthy s = true ↔ s ≠ [].
Proof. by destruct s. Qed.

Lemma linebreak_LF : is_linebreak LF = true.
Proof. reflexivity. Qed.

Lemma not_linebreak_not_CR c : is_linebreak c = false → (c =? CR)%N = false.
Proof.
  intros H. destruct (c =? CR)%N eqn:E; [|done].
  apply N.eqb_eq in E as ->. discriminate.
Qed.

Lemma not_linebreak_not_LF c : is_linebreak c = false → (c =? LF)%N = false.
Proof.
  intros H. destruct (c =? LF)%N eqn:E; [|done].
  apply N.eqb_eq in E as ->. discriminate.
Qed.

(** Every line [splitlines] produces is free of line boundaries. *)
Lemma splitlines_from_one_line n s cur :
  (length s ≤ n)%nat → one_line cur →
  Forall one_line (splitlines_from cur s).
Proof.
  revert s cur. induction n as [|n IH]; intros [|c rest] cur Hn Hcur;
    simpl in *; try lia.
  - destruct cur; [constructor | constructor; [done | constructor]].
  - destruct cur; [constructor | constructor; [done | constructor]].
  - assert (Forall one_line (cur :: splitlines_from [] rest)) as Hrest.
    { constructor; [done|]. apply IH; [lia | constructor]. }
    destruct (c =? CR)%N.
    + destruct rest as [|c' rest']; [done|].
      destruct (c' =? LF)%N; [|done].
      constructor; [done|]. apply IH; [simpl in Hn; lia | constructor].
    + destruct (is_linebreak c) eqn:E; [done|].
      apply IH; [lia|]. apply Forall_app. split; [done|]. by repeat constructor.
Qed.

Lemma splitlines_one_line s : Forall one_line (splitlines s).
Proof. by apply (splitlines_from_one_line (length s)); [|constructor]. Qed.

(** A line followed by LF is read back as that line. *)
Lemma splitlines_from_line cur r rest :
  one_line r →
  splitlines_from cur (r ++ LF :: rest)
  = (cur ++ r) :: splitlines_from [] rest.
Proof.
  intros Hr. revert cur. induction Hr as [|c r Hc Hr IH]; intros cur; simpl.
  - by rewrite app_nil_r.
  - rewrite (not_linebreak_not_CR c Hc), Hc, IH. by rewrite <- app_assoc.
Qed.

Lemma universal_newlines_no_CR s :
  Forall (λ c, (c =? CR)%N = false) s → universal_newlines s = s.
Proof.
  induction 1 as [|c s Hc Hs IH]; simpl; [done|]. by rewrite Hc, IH.
Qed.

Lemma stripped_lines_filter_map lines :
  stripped_lines lines = List.filter truthy (List.map strip lines).
Proof.
  unfold stripped_lines. induction lines as [|l lines IH]; simpl; [done|].
  destruct (truthy (strip l)); simpl; by rewrite IH.
Qed.

Lemma stripped_lines_records lines :
  Forall one_line lines → Forall record (stripped_lines lines).
Proof.
  unfold stripped_lines. induction 1 as [|l lines Hl Hlines IH]; simpl.
  - constructor.
  - destruct (truthy (strip l)) eqn:E; simpl; [|done].
    constructor; [|done]. split; [by apply truthy_nonempty|].
    split; [apply strip_trimmed | by apply strip_one_line].
Qed.

Lemma stripped_lines_fixed R : Forall record R → stripped_lines R = R.
Proof.
  unfold stripped_lines. induction 1 as [|r R (Hne & Ht & _) HR IH]; simpl.
  - done.
  - rewrite (strip_fixed r Ht). destruct r; [done|]. simpl.
    rewrite (strip_fixed _ Ht). by rewrite IH.
Qed.

Lemma results_text_no_CR R :
  Forall one_line R → Forall (λ c, (c =? CR)%N = false) (results_text R).
Proof.
  unfold results_text. induction 1 as [|r R Hr HR IH]; simpl; [constructor|].
  rewrite <- app_assoc. apply Forall_app. split.
  - eapply Forall_impl; [exact Hr|]. apply not_linebreak_not_CR.
  - by constructor.
Qed.

Lemma splitlines_results_text R :
  Forall one_line R → splitlines (results_text R) = R.
Proof.
  unfold splitlines, results_text.
  induction 1 as [|r R Hr HR IH]; simpl; [done|].
  rewrite <- app_assoc. simpl. by rewrite splitlines_from_line, IH.
Qed.

End Strings.

(** ** Loading records *)

Section Loader.
Implicit Types (fs : gmap (list N) file) (path out t p : str) (R : list str).

Lemma read_text_file fs path t :
  fs !! path = Some (Text t) →
  read_card_numbers_from_file fs path
  = Returned (stripped_lines (splitlines (universal_newlines t))).
Proof.
  intros H. unfold read_card_numbers_from_file, open_read. by rewrite H.
Qed.

Lemma read_missing_file fs path :
  fs !! path = None → read_card_numbers_from_file fs path = Returned [].
Proof.
  intros H. unfold read_card_numbers_from_file, open_read. by rewrite H.
Qed.

Lemma read_binary_file fs path :
  fs !! path = Some Binary →
  read_card_numbers_from_file fs path = Raised "UnicodeDecodeError".
Proof.
  intros H. unfold read_card_numbers_from_file, open_read. by rewrite H.
Qed.

(** Whatever the loader returns is a list of records. *)
Lemma read_returns_records fs path R :
  read_card_numbers_from_file fs path = Returned R → Forall record R.
Proof.
  destruct (fs !! path) as [[t|]|] eqn:E.
  - rewrite (read_text_file _ _ _ E). intros [= <-].
    apply stripped_lines_records, splitlines_one_line.
  - by rewrite (read_binary_file _ _ E).
  - rewrite (read_missing_file _ _ E). intros [= <-]. constructor.
Qed.

Lemma extract_matching_cards_records R p :
  Forall record R → Forall record (extract_matching_cards R p).
Proof.
  rewrite !Forall_forall. intros H r Hr.
  apply extract_matching_cards_elem in Hr as [Hr _]. by apply H.
Qed.

Lemma read_results_text fs out R :
  Forall record R →
  read_card_numbers_from_file (<[out := Text (results_text R)]> fs) out
  = Returned R.
Proof.
  intros HR.
  assert (Forall one_line R) as Hl.
  { eapply Forall_impl; [exact HR|]. by intros r (_ & _ & H). }
  rewrite (read_text_file _ _ (results_text R)) by apply lookup_insert_eq.
  rewrite universal_newlines_no_CR by by apply results_text_no_CR.
  rewrite splitlines_results_text by done.
  by rewrite stripped_lines_fixed.
Qed.

(** C6: the loader splits the text into lines, trims the whitespace at
    both ends of each line and drops the lines left empty; the payload
    ["  4000\n\n5000  \n"] gives exactly ["4000"; "5000"]. *)
Theorem read_card_numbers_trims_and_drops fs path t :
  read_card_numbers_from_file (<[path := Text t]> fs) path
  = Returned
      (List.filter truthy
         (List.map strip (splitlines (universal_newlines t))))
  ∧ (∀ l : str, ∃ a b : str,
        l = a ++ strip l ++ b
        ∧ Forall (λ c, is_space c = true) a
        ∧ Forall (λ c, is_space c = true) b
        ∧ trimmed (strip l))
  ∧ read_card_numbers_from_file
      (<[path := Text (lit "  4000" ++ [LF; LF] ++ lit "5000  " ++ [LF])]> fs)
      path
    = Returned [lit "4000"; lit "5000"].
Proof.
  split; [|split].
  - rewrite (read_text_file _ _ t) by apply lookup_insert_eq.
    by rewrite stripped_lines_filter_map.
  - intros l. destruct (strip_split l) as (a & b & H & Ha & Hb).
    exists a, b. repeat split; try done; apply strip_trimmed.
  - by rewrite (read_text_file _ _ _ (lookup_insert_eq _ _ _)).
Qed.

(** C7: for a record list [R] handed out by the loader and a non-empty
    prefix [p], the results file (each match followed by a newline,
    nothing else) is loaded back as exactly the matches, in order. *)
Theorem results_file_roundtrip fs path out R p :
  read_card_numbers_from_file fs path = Returned R →
  p ≠ [] →
  read_card_numbers_from_file
    (<[out := Text (results_text (extract_matching_cards R p))]> fs) out
  = Returned (extract_matching_cards R p).
Proof.
  intros HR _. apply read_results_text, extract_matching_cards_records.
  by eapply read_returns_records.
Qed.

Lemma results_file_roundtrip_witness :
  let fs : gmap (list N) file :=
    {[ lit "in.txt" :=
         Text (lit " 4000111 " ++ [CR; LF] ++ lit "5000333" ++ [LF; LF]
               ++ lit "4000222") ]} in
  let R := [lit "4000111"; lit "5000333"; lit "4000222"] in
  read_card_numbers_from_file fs (lit "in.txt") = Returned R
  ∧ read_card_numbers_from_file
      (<[lit "out.txt" :=
           Text (results_text (extract_matching_cards R (lit "4000")))]> fs)
      (lit "out.txt")
    = Returned [lit "4000111"; lit "4000222"].
Proof.
  split; [vm_compute; reflexivity|].
  apply (results_file_roundtrip
           {[ lit "in.txt" :=
                Text (lit " 4000111 " ++ [CR; LF] ++ lit "5000333"
                      ++ [LF; LF] ++ lit "4000222") ]}
           (lit "in.txt") (lit "out.txt")
           [lit "4000111"; lit "5000333"; lit "4000222"] (lit "4000")).
  - vm_compute; reflexivity.
  - discriminate.
Defined.

End Loader.

(** ** Reasoning about handlers *)

Section Wp.
Context {A B : Type}.
Implicit Types (fails : io_point → bool) (σ : state).

Lemma wp_ret (a : A) Q σ : Q (Returned a) σ → wp (ret a) Q σ.
Proof. done. Qed.

Lemma wp_raise e (Q : py_result A → state → Prop) σ :
  Q (Raised e) σ → wp (raise e) Q σ.
Proof. done. Qed.

Lemma wp_bind (m : M A) (k : A → M B) Q σ :
  wp m (λ r σ', match r with
                | Returned a => wp (k a) Q σ'
                | Raised e => Q (Raised e) σ'
                end) σ →
  wp (m ≫= k) Q σ.
Proof.
  unfold wp, mbind, M_bind, bind. by destruct (m σ) as [[a|e] σ'].
Qed.

Lemma wp_try (m : M A) (h : string → M A) Q σ :
  wp m (λ r σ', match r with
                | Returned a => Q (Returned a) σ'
                | Raised e => wp (h e) Q σ'
                end) σ →
  wp (try_except m h) Q σ.
Proof.
  unfold wp, try_except. by destruct (m σ) as [[a|e] σ'].
Qed.
End Wp.

Section WpPrim.
Implicit Types (fails : io_point → bool) (σ : state).

Lemma wp_external fails p (Q : py_result unit → state → Prop) σ :
  (fails p = true → Q (Raised "TelegramError") σ) →
  (fails p = false → Q (Returned ()) σ) →
  wp (external fails p) Q σ.
Proof.
  unfold wp, external. destruct (fails p); simpl; auto.
Qed.

Lemma wp_get_contexts (Q : py_result (gmap Z context) → state → Prop) σ :
  Q (Returned (user_contexts σ)) σ → wp get_contexts Q σ.
Proof. done. Qed.

Lemma wp_set_context uid c (Q : py_result unit → state → Prop) σ :
  Q (Returned ()) (State (<[uid := c]> (user_contexts σ)) (files σ)) →
  wp (set_context uid c) Q σ.
Proof. done. Qed.

Lemma wp_del_context uid (Q : py_result unit → state → Prop) σ :
  (∀ c, user_contexts σ !! uid = Some c →
        Q (Returned ()) (State (delete uid (user_contexts σ)) (files σ))) →
  (user_contexts σ !! uid = None → Q (Raised "KeyError") σ) →
  wp (del_context uid) Q σ.
Proof.
  unfold wp, del_context. destruct (user_contexts σ !! uid); simpl; eauto.
Qed.

Lemma wp_write_file path f (Q : py_result unit → state → Prop) σ :
  Q (Returned ()) (State (user_contexts σ) (<[path := f]> (files σ))) →
  wp (write_file path f) Q σ.
Proof. done. Qed.

Lemma wp_os_remove path (Q : py_result unit → state → Prop) σ :
  (∀ f, files σ !! path = Some f →
        Q (Returned ()) (State (user_contexts σ) (delete path (files σ)))) →
  (files σ !! path = None → Q (Raised "FileNotFoundError") σ) →
  wp (os_remove path) Q σ.
Proof.
  unfold wp, os_remove. destruct (files σ !! path); simpl; eauto.
Qed.

Lemma wp_read_cards path (Q : py_result (list str) → state → Prop) σ :
  Q (read_card_numbers_from_file (files σ) path) σ →
  wp (read_cards path) Q σ.
Proof. done. Qed.
End WpPrim.

Ltac wp_step :=
  lazymatch goal with
  | |- wp (mbind _ _) _ _ => apply wp_bind
  | |- wp (ret _) _ _ => apply wp_ret
  | |- wp (raise _) _ _ => apply wp_raise
  | |- wp (try_except _ _) _ _ => apply wp_try
  | |- wp (external _ _) _ _ => apply wp_external; intros ?
  | |- wp get_contexts _ _ => apply wp_get_contexts
  | |- wp (set_context _ _) _ _ => apply wp_set_context
  | |- wp (del_context _) _ _ => apply wp_del_context; [intros ? ?|intros ?]
  | |- wp (write_file _ _) _ _ => apply wp_write_file
  | |- wp (os_remove _) _ _ => apply wp_os_remove; [intros ? ?|intros ?]
  | |- wp (read_cards _) _ _ => apply wp_read_cards
  | |- wp (match ?x with _ => _ end) _ _ => destruct x eqn:?
  | |- match ?x with _ => _ end => destruct x eqn:?
  end; cbn beta iota; cbn [user_contexts files].

Ltac wp_tests :=
  repeat match goal with
         | H : negb _ = true |- _ => apply negb_true_iff in H
         | H : (_ <? _) = true |- _ => apply Z.ltb_lt in H
         | H : (_ <? _) = false |- _ => apply Z.ltb_ge in H
         end.

Section Handlers.
Implicit Types (fails : io_point → bool) (doc : Document) (σ : state).

Lemma handle_document_other fails doc A B σ :
  A ≠ B →
  wp (handle_document fails doc A)
     (λ _ σ', user_contexts σ' !! B = user_contexts σ !! B) σ.
Proof.
  intros Hne.
  unfold handle_document, handle_document_body, handle_document_except.
  repeat wp_step; rewrite ?lookup_delete_ne by done; done.
Qed.

(** C10: handling an upload from actor [A] leaves the entry of every
    other actor [B] in the pending-request map as it was, present or
    absent, with the same prefix. *)
Theorem handle_document_frame fails doc A B σ :
  A ≠ B →
  user_contexts (handle_document fails doc A σ).2 !! B
  = user_contexts σ !! B.
Proof. intros Hne. by apply (handle_document_other fails doc A B σ). Qed.

Lemma handle_document_frame_witness :
  let σ := State (<[8 := Context (lit "5000") true]>
                    (<[7 := Context (lit "4000") true]> ∅)) ∅ in
  let doc := {| file_name := Some (lit "cards.txt"); file_size := Some 16;
                file_content := Text (lit "4000111" ++ [LF] ++ lit "5000333")
             |} in
  user_contexts (handle_document (λ _, false) doc 7 σ).2 !! 7 = None
  ∧ user_contexts (handle_document (λ _, false) doc 7 σ).2 !! 8
    = Some (Context (lit "5000") true).
Proof.
  split; [vm_compute; reflexivity|].
  rewrite (handle_document_frame (λ _, false)
             {| file_name := Some (lit "cards.txt"); file_size := Some 16;
                file_content := Text (lit "4000111" ++ [LF] ++ lit "5000333")
             |} 7 8) by lia.
  vm_compute; reflexivity.
Defined.

Lemma handle_document_reports_empty fails doc uid σ name size :
  file_name doc = Some name →
  endswith name (lit ".txt") = true →
  file_size doc = Some size →
  size ≤ 10 * 1024 * 1024 →
  fails ReplyProcessing = false →
  fails GetFile = false →
  fails Download = false →
  fails EditEmpty = false →
  wp (handle_document fails doc uid)
     (λ r _, r = Returned EmptyFile
             ↔ read_card_numbers_from_file
                 (<[temp_file_path uid := file_content doc]> (files σ))
                 (temp_file_path uid) = Returned []) σ.
Proof.
  intros Hn He Hs Hle H1 H2 H3 H4.
  unfold handle_document, handle_document_body, handle_document_except.
  rewrite Hn, Hs.
  repeat wp_step; wp_tests; try congruence; try lia; split; congruence.
Qed.

(** C3: an upload is answered with the "empty or no valid card numbers"
    error exactly when loading it yields zero records, and so for an
    empty payload; for a missing file the loader itself raises nothing
    and hands out the empty record list. *)
Theorem empty_input_reported fails doc uid σ name size :
  file_name doc = Some name →
  endswith name (lit ".txt") = true →
  file_size doc = Some size →
  size ≤ 10 * 1024 * 1024 →
  fails ReplyProcessing = false →
  fails GetFile = false →
  fails Download = false →
  fails EditEmpty = false →
  ((handle_document fails doc uid σ).1 = Returned EmptyFile
   ↔ read_card_numbers_from_file
       (<[temp_file_path uid := file_content doc]> (files σ))
       (temp_file_path uid) = Returned [])
  ∧ (file_content doc = Text [] →
     (handle_document fails doc uid σ).1 = Returned EmptyFile)
  ∧ (∀ (fs : gmap (list N) file) (path : str),
        fs !! path = None →
        read_card_numbers_from_file fs path = Returned []).
Proof.
  intros Hn He Hs Hle H1 H2 H3 H4.
  pose proof (handle_document_reports_empty fails doc uid σ name size
                Hn He Hs Hle H1 H2 H3 H4) as H.
  unfold wp in H. split; [exact H|]. split.
  - intros Hc. apply H. rewrite Hc.
    by rewrite (read_text_file _ _ []) by apply lookup_insert_eq.
  - apply read_missing_file.
Qed.

Lemma empty_input_reported_witness :
  let doc := {| file_name := Some (lit "cards.txt"); file_size := Some 0;
                file_content := Text [] |} in
  let σ := State ∅ ∅ in
  (handle_document (λ _, false) doc 7 σ).1 = Returned EmptyFile
  ∧ read_card_numbers_from_file (files σ) (lit "card_numbers.txt")
    = Returned [].
Proof.
  pose proof (empty_input_reported (λ _, false)
                {| file_name := Some (lit "cards.txt"); file_size := Some 0;
                   file_content := Text [] |}
                7 (State ∅ ∅) (lit "cards.txt") 0
                eq_refl eq_refl eq_refl ltac:(lia)
                eq_refl eq_refl eq_refl eq_refl) as (_ & H1 & H2).
  split; [by apply H1 | by apply H2].
Defined.

Lemma handle_document_except_clears fails uid e σ :
  fails EditError = false →
  wp (handle_document_except fails uid e)
     (λ _ σ', user_contexts σ' !! uid = None) σ.
Proof.
  intros H. unfold handle_document_except.
  repeat wp_step; rewrite ?lookup_delete_eq; congruence.
Qed.

Lemma handle_document_clears fails doc uid σ name size c :
  user_contexts σ !! uid = Some c →
  waiting_for_file c = true →
  file_name doc = Some name →
  endswith name (lit ".txt") = true →
  file_size doc = Some size →
  size ≤ 10 * 1024 * 1024 →
  read_card_numbers_from_file
    (<[temp_file_path uid := file_content doc]> (files σ))
    (temp_file_path uid) ≠ Returned [] →
  fails ReplyProcessing = false →
  fails EditError = false →
  wp (handle_document fails doc uid)
     (λ _ σ', user_contexts σ' !! uid = None) σ.
Proof.
  intros Hc Hw Hn He Hs Hle Hne H1 H2.
  unfold handle_document, handle_document_body, handle_document_except.
  rewrite Hn, Hs.
  repeat wp_step; wp_tests; simplify_eq/=; rewrite ?lookup_delete_eq;
    try congruence; lia.
Qed.

Lemma search_cards_stores fails prefix args uid σ :
  wp (search_cards fails (prefix :: args) uid)
     (λ _ σ', user_contexts σ' !! uid = Some (Context prefix true)) σ.
Proof.
  unfold search_cards. repeat wp_step; by rewrite lookup_insert_eq.
Qed.

(** C4, as the spec states it, fails: an empty payload uploaded while a
    request is pending is rejected and the request stays pending. *)
Lemma empty_upload_keeps_request :
  let σ := State (<[7 := Context (lit "4000") true]> ∅) ∅ in
  let doc := {| file_name := Some (lit "cards.txt"); file_size := Some 0;
                file_content := Text [] |} in
  user_contexts σ !! 7 = Some (Context (lit "4000") true)
  ∧ (handle_document (λ _, false) doc 7 σ).1 = Returned EmptyFile
  ∧ user_contexts (handle_document (λ _, false) doc 7 σ).2 !! 7
    = Some (Context (lit "4000") true).
Proof. repeat split; vm_compute; reflexivity. Qed.

(** C4, amended: for an actor with a pending request, an upload that the
    handler accepts (a [.txt] name, a declared size of at most 10 MB, at
    least one record) removes the pending request whatever the match
    outcome; and a new filter request stores its prefix over whatever was
    pending, the map holding one entry per actor. *)
Theorem accepted_upload_clears_request fails doc uid σ name size c :
  user_contexts σ !! uid = Some c →
  waiting_for_file c = true →
  file_name doc = Some name →
  endswith name (lit ".txt") = true →
  file_size doc = Some size →
  size ≤ 10 * 1024 * 1024 →
  read_card_numbers_from_file
    (<[temp_file_path uid := file_content doc]> (files σ))
    (temp_file_path uid) ≠ Returned [] →
  fails ReplyProcessing = false →
  fails EditError = false →
  user_contexts (handle_document fails doc uid σ).2 !! uid = None
  ∧ ∀ fails' prefix' args σ0 c',
      user_contexts (search_cards fails' (prefix' :: args) uid σ0).2 !! uid
      = Some c' ↔ c' = Context prefix' true.
Proof.
  intros Hc Hw Hn He Hs Hle Hne H1 H2. split.
  - by apply (handle_document_clears fails doc uid σ name size c).
  - intros fails' prefix' args σ0 c'.
    pose proof (search_cards_stores fails' prefix' args uid σ0) as H.
    unfold wp in H. rewrite H. split; congruence.
Qed.

Lemma accepted_upload_clears_request_witness :
  let σ := State (<[7 := Context (lit "9999") true]> ∅) ∅ in
  let doc := {| file_name := Some (lit "cards.txt"); file_size := Some 8;
                file_content := Text (lit "4000111" ++ [LF]) |} in
  (handle_document (λ _, false) doc 7 σ).1 = Returned (NoMatch (lit "9999") 1)
  ∧ user_contexts (handle_document (λ _, false) doc 7 σ).2 !! 7 = None.
Proof.
  split; [vm_compute; reflexivity|].
  apply (accepted_upload_clears_request (λ _, false)
           {| file_name := Some (lit "cards.txt"); file_size := Some 8;
              file_content := Text (lit "4000111" ++ [LF]) |}
           7 (State (<[7 := Context (lit "9999") true]> ∅) ∅)
           (lit "cards.txt") 8 (Context (lit "9999") true)).
  - vm_compute; reflexivity.
  - reflexivity.
  - reflexivity.
  - vm_compute; reflexivity.
  - reflexivity.
  - lia.
  - vm_compute; discriminate.
  - reflexivity.
  - reflexivity.
Defined.

End Handlers.

(** ** The prefix statistics *)

Section Dict.
Implicit Types (d : list (str * nat)) (k q : str) (v n : nat).

Lemma dict_set_keys d k v :
  (dict_set d k v).*1 = if decide (k ∈ d.*1) then d.*1 else d.*1 ++ [k].
Proof.
  induction d as [|[k' v'] d IH].
  - rewrite decide_False by apply not_elem_of_nil. done.
  - rewrite fmap_cons. cbn [dict_set fst].
    destruct (decide (k' = k)) as [->|Hne].
    + rewrite decide_True by apply list_elem_of_here. done.
    + rewrite fmap_cons, IH. cbn [fst].
      destruct (decide (k ∈ d.*1)) as [Hin|Hnin].
      * rewrite decide_True by by apply list_elem_of_further. done.
      * rewrite decide_False; [done|].
        rewrite elem_of_cons. intros [?|?]; congruence.
Qed.

Lemma dict_get_set d k v q default :
  dict_get (dict_set d k v) q default
  = if decide (k = q) then v else dict_get d q default.
Proof.
  induction d as [|[k' v'] d IH]; simpl.
  - destruct (decide (k = q)); done.
  - destruct (decide (k' = k)) as [->|Hne]; simpl.
    + destruct (decide (k = q)); done.
    + destruct (decide (k' = q)) as [->|Hne'].
      * by rewrite decide_False by done.
      * done.
Qed.

Lemma dict_get_elem d q n default :
  NoDup d.*1 → (q, n) ∈ d → dict_get d q default = n.
Proof.
  induction d as [|[k' v'] d IH]; simpl; intros Hnd Hin.
  - by apply elem_of_nil in Hin.
  - apply NoDup_cons in Hnd as [Hk Hnd].
    apply elem_of_cons in Hin as [[= <- <-]|Hin].
    + by rewrite decide_True.
    + rewrite decide_False; [by apply IH|].
      intros ->. apply Hk. apply list_elem_of_fmap. by exists (q, n).
Qed.
End Dict.

Section Counting.
Implicit Types (d : list (str * nat)) (q x : str) (P : list str).

Lemma occurrences_snoc q P x :
  occurrences q (P ++ [x])
  = (occurrences q P + if decide (x = q) then 1 else 0)%nat.
Proof.
  induction P as [|y P IH]; simpl; [lia|]. rewrite IH. lia.
Qed.

Lemma occurrences_pos q P : (0 < occurrences q P)%nat ↔ q ∈ P.
Proof.
  induction P as [|y P IH]; simpl.
  - split; [lia | by intros ?%elem_of_nil].
  - rewrite elem_of_cons, <- IH.
    destruct (decide (y = q)) as [->|Hne]; [split; [by left | lia]|].
    split; [by right | intros [?|?]; [congruence | done]].
Qed.

Lemma first_index_lt q P : q ∈ P → (first_index q P < length P)%nat.
Proof.
  induction P as [|y P IH]; simpl; [by intros ?%elem_of_nil|].
  intros Hin. destruct (decide (y = q)) as [->|Hne]; [lia|].
  apply elem_of_cons in Hin as [?|Hin]; [congruence|].
  apply IH in Hin. lia.
Qed.

Lemma first_index_absent q P : q ∉ P → first_index q P = length P.
Proof.
  induction P as [|y P IH]; simpl; [done|].
  intros Hnin. apply not_elem_of_cons in Hnin as [Hne Hnin].
  rewrite decide_False by done. by rewrite IH.
Qed.

Lemma first_index_snoc_old q P x :
  q ∈ P → first_index q (P ++ [x]) = first_index q P.
Proof.
  induction P as [|y P IH]; simpl; [by intros ?%elem_of_nil|].
  intros Hin. destruct (decide (y = q)) as [->|Hne]; [done|].
  apply elem_of_cons in Hin as [?|Hin]; [congruence|]. by rewrite IH.
Qed.

Lemma first_index_snoc_new x P :
  x ∉ P → first_index x (P ++ [x]) = length P.
Proof.
  induction P as [|y P IH]; simpl.
  - intros _. by rewrite decide_True.
  - intros Hnin. apply not_elem_of_cons in Hnin as [Hne Hnin].
    rewrite decide_False by done. by rewrite IH.
Qed.

(** The loop of [stats_command] counts the analysed prefixes one by
    one. *)
Lemma fold_count_card cards d :
  fold_left count_card cards d
  = fold_left count_prefix
      (List.map (take 4)
         (List.filter (λ card, (4 <=? length card)%nat) cards)) d.
Proof.
  revert d. induction cards as [|card cards IH]; intros d; [done|].
  cbn [fold_left List.filter]. rewrite IH. unfold count_card at 1.
  destruct (4 <=? length card)%nat eqn:E; [|done].
  cbn [List.map fold_left]. done.
Qed.

Lemma prefix_counts_fold cards :
  prefix_counts cards = fold_left count_prefix (analysed_prefixes cards) [].
Proof. apply fold_count_card. Qed.

(** What the dict holds once the prefixes [P] are counted: each prefix
    of [P] once, in the order of first meeting, with its count. *)
Lemma counted_prefixes P :
  let d := fold_left count_prefix P [] in
  NoDup d.*1
  ∧ (∀ q, dict_get d q 0 = occurrences q P)
  ∧ (∀ q, q ∈ d.*1 ↔ q ∈ P)
  ∧ StronglySorted (λ a b, (first_index a P < first_index b P)%nat) d.*1.
Proof.
  induction P as [|x P IH] using rev_ind; simpl.
  - repeat split; try constructor; by intros ?%elem_of_nil.
  - rewrite fold_left_app. simpl.
    destruct IH as (Hnd & Hget & Hkeys & Hsorted).
    set (d := fold_left count_prefix P []) in *.
    unfold count_prefix.
    assert (∀ q, q ∈ d.*1 →
              first_index q (P ++ [x]) = first_index q P) as Hold.
    { intros q Hq. apply first_index_snoc_old. by apply Hkeys. }
    assert (StronglySorted
              (λ a b, (first_index a (P ++ [x]) < first_index b (P ++ [x]))%nat)
              d.*1) as Hsorted'.
    { clear -Hsorted Hold. induction Hsorted as [|a l Hl IH Ha].
      - constructor.
      - constructor.
        + apply IH. intros q Hq. apply Hold. by right.
        + apply Forall_forall. intros b Hb.
          rewrite Forall_forall in Ha. specialize (Ha b Hb).
          rewrite !Hold; [done | by right | by left]. }
    split; [|split; [|split]].
    + rewrite dict_set_keys. case_decide as Hin; [done|].
      apply NoDup_app. split; [done|]. split; [|apply NoDup_singleton].
      intros q Hq ->%list_elem_of_singleton. done.
    + intros q. rewrite dict_get_set, occurrences_snoc.
      destruct (decide (x = q)) as [->|Hne]; rewrite Hget; lia.
    + intros q. rewrite dict_set_keys, elem_of_app, list_elem_of_singleton.
      case_decide as Hin.
      * rewrite Hkeys. split; [by left|]. intros [?| ->]; [done|].
        by apply Hkeys.
      * rewrite elem_of_app, list_elem_of_singleton, Hkeys. done.
    + rewrite dict_set_keys. case_decide as Hin; [done|].
      apply StronglySorted_app_2; [|done | repeat constructor].
      intros a b Ha ->%list_elem_of_singleton.
      rewrite (Hold a Ha).
      rewrite first_index_snoc_new by (by rewrite <- Hkeys).
      apply first_index_lt. by apply Hkeys.
Qed.
End Counting.

Section Ranking.
Implicit Types (d S : list (str * nat)) (x y : str * nat).
Variable before : relation (str * nat).

Lemma insert_by_count_perm x S : insert_by_count x S ≡ₚ x :: S.
Proof.
  induction S as [|y S IH]; simpl; [done|].
  destruct (y.2 <=? x.2)%nat; [done|]. rewrite IH. apply Permutation_swap.
Qed.

Lemma sorted_by_count_perm d : sorted_by_count d ≡ₚ d.
Proof.
  induction d as [|x d IH]; simpl; [done|].
  by rewrite insert_by_count_perm, IH.
Qed.

Lemma ranked_count_le x y : ranked_by before x y → (y.2 ≤ x.2)%nat.
Proof. intros [?|[? _]]; lia. Qed.

(** An item met before all of [S] goes in front of the items whose
    count is not larger than its own. *)
Lemma insert_by_count_sorted x S :
  StronglySorted (ranked_by before) S → Forall (before x) S →
  StronglySorted (ranked_by before) (insert_by_count x S).
Proof.
  induction S as [|y S IH]; simpl; intros Hs Hb.
  - repeat constructor.
  - apply StronglySorted_cons in Hs as [Hy Hs].
    apply Forall_cons in Hb as [Hxy Hb].
    destruct (y.2 <=? x.2)%nat eqn:E.
    + apply Nat.leb_le in E. constructor.
      * by constructor.
      * rewrite Forall_forall in Hy, Hb.
        constructor.
        -- destruct (decide (y.2 = x.2)); [right; by split | left; lia].
        -- apply Forall_forall. intros z Hz.
           pose proof (ranked_count_le _ _ (Hy z Hz)).
           destruct (decide (z.2 = x.2)); [right; split; auto | left; lia].
    + apply Nat.leb_gt in E. constructor; [by apply IH|].
      rewrite insert_by_count_perm. constructor; [by left | done].
Qed.

(** The sort is stable: equal counts stay in their order. *)
Lemma sorted_by_count_stable d :
  StronglySorted before d → StronglySorted (ranked_by before) (sorted_by_count d).
Proof.
  induction 1 as [|x d Hd IH Hx]; simpl; [constructor|].
  apply insert_by_count_sorted; [done|].
  by rewrite sorted_by_count_perm.
Qed.
End Ranking.

Section Statistics.
Implicit Types (cards P : list str) (q : str) (n k : nat).

Lemma StronglySorted_keys (R : relation str) (d : list (str * nat)) :
  StronglySorted R d.*1 → StronglySorted (λ a b, R a.1 b.1) d.
Proof.
  induction d as [|x d IH]; [constructor|].
  rewrite fmap_cons. intros [Hx Hd]%StronglySorted_cons.
  constructor; [by apply IH|].
  apply Forall_forall. intros b Hb. rewrite Forall_forall in Hx.
  apply Hx, list_elem_of_fmap. by exists b.
Qed.

Lemma counted_prefixes_elem P q n :
  (q, n) ∈ fold_left count_prefix P []
  ↔ n = occurrences q P ∧ (0 < n)%nat.
Proof.
  destruct (counted_prefixes P) as (Hnd & Hget & Hkeys & _).
  set (d := fold_left count_prefix P []) in *. split.
  - intros Hin. pose proof (dict_get_elem d q n 0 Hnd Hin) as Hn.
    rewrite Hget in Hn. split; [done|]. rewrite <- Hn.
    apply occurrences_pos, Hkeys, list_elem_of_fmap. by exists (q, n).
  - intros [-> Hpos]. apply occurrences_pos, Hkeys in Hpos.
    apply list_elem_of_fmap in Hpos as ([q' m] & -> & Hin). simpl.
    pose proof (dict_get_elem d q' m 0 Hnd Hin) as Hm.
    rewrite Hget in Hm. by rewrite Hm.
Qed.

(** C5: the statistics count the first four code points of each of the
    first 5000 records, skipping records shorter than four, and list the
    [k] most frequent prefixes ([k = 10] in the handler) by descending
    count, prefixes of equal count in the order they were first met. *)
Theorem top_prefixes_ranking k cards :
  ∃ ranking : list (str * nat),
    top_prefixes_upto k cards = take k ranking
    ∧ top_prefixes cards = take 10 ranking
    ∧ NoDup ranking.*1
    ∧ (∀ q n, (q, n) ∈ ranking
              ↔ n = occurrences q (analysed_prefixes cards) ∧ (0 < n)%nat)
    ∧ StronglySorted (ranks_before (analysed_prefixes cards)) ranking.
Proof.
  exists (sorted_by_count (prefix_counts cards)).
  split; [done|]. split; [done|].
  rewrite prefix_counts_fold.
  set (P := analysed_prefixes cards).
  destruct (counted_prefixes P) as (Hnd & _ & _ & Hsorted).
  split; [|split].
  - by rewrite sorted_by_count_perm.
  - intros q n. rewrite sorted_by_count_perm. apply counted_prefixes_elem.
  - apply (sorted_by_count_stable (met_before P)).
    by apply StronglySorted_keys in Hsorted.
Qed.

Example top_prefixes_sample :
  top_prefixes_upto 1 [lit "4000a"; lit "4000b"; lit "5000c"]
  = [(lit "4000", 2%nat)].
Proof. reflexivity. Qed.

Example top_prefixes_ties :
  top_prefixes [lit "5000c"; lit "4000a"; lit "70000"; lit "600";
                lit "4000b"; lit "5000"]
  = [(lit "5000", 2%nat); (lit "4000", 2%nat); (lit "7000", 1%nat)].
Proof. reflexivity. Qed.
End Statistics.

(** * Further properties *)

(** ** More on prefix filtering *)

Section FilterMore.
Implicit Types (card p : str) (R : list str).

Lemma startswith_length card p :
  startswith card p = true → (length p ≤ length card)%nat.
Proof.
  intros H. apply startswith_prefix_of in H as [k ->].
  rewrite length_app. lia.
Qed.

Lemma startswith_narrow card p p' :
  p `prefix_of` p' → startswith card p' = true → startswith card p = true.
Proof.
  intros Hp H. apply startswith_prefix_of.
  apply startswith_prefix_of in H. by etrans.
Qed.

(** X1: the filter keeps exactly the matching cards, duplicates included:
    a card that starts with the prefix occurs in the result as often as in
    the input, any other card not at all. *)
Theorem extract_matching_cards_occurrences R p card :
  occurrences card (extract_matching_cards R p)
  = if startswith card p then occurrences card R else 0%nat.
Proof.
  induction R as [|c R IH]; simpl.
  - by destruct (startswith card p).
  - destruct (startswith c p) eqn:Ec; simpl; rewrite IH;
      destruct (decide (c = card)) as [->|Hne];
      destruct (startswith card p); simpl; congruence.
Qed.

(** X2: filtering a concatenation is concatenating the filtered parts, so
    a list can be filtered piece by piece. *)
Theorem extract_matching_cards_app R1 R2 p :
  extract_matching_cards (R1 ++ R2) p
  = extract_matching_cards R1 p ++ extract_matching_cards R2 p.
Proof. apply List.filter_app. Qed.

(** X3: narrowing a search: filtering the matches of [p] by a longer
    prefix [p'] gives the matches of [p'] in the whole list. *)
Theorem extract_matching_cards_narrow R p p' :
  p `prefix_of` p' →
  extract_matching_cards (extract_matching_cards R p) p'
  = extract_matching_cards R p'.
Proof.
  intros Hp. induction R as [|c R IH]; simpl; [done|].
  destruct (startswith c p) eqn:Ec; simpl.
  - by rewrite IH.
  - rewrite IH. destruct (startswith c p') eqn:Ec'; [|done].
    apply (startswith_narrow c p p' Hp) in Ec'. congruence.
Qed.

Lemma extract_matching_cards_narrow_witness :
  let R := [lit "4000111"; lit "4012222"; lit "5000333"; lit "4000444"] in
  extract_matching_cards (extract_matching_cards R (lit "40")) (lit "4000")
  = [lit "4000111"; lit "4000444"].
Proof.
  intros R. rewrite (extract_matching_cards_narrow R (lit "40") (lit "4000")).
  - reflexivity.
  - by exists (lit "00").
Defined.

(** X4: the two filters commute: the order in which two prefixes are
    applied does not matter. *)
Theorem extract_matching_cards_comm R p p' :
  extract_matching_cards (extract_matching_cards R p) p'
  = extract_matching_cards (extract_matching_cards R p') p.
Proof.
  induction R as [|c R IH]; simpl; [done|].
  destruct (startswith c p) eqn:Ec, (startswith c p') eqn:Ec'; simpl;
    rewrite ?Ec, ?Ec', IH; done.
Qed.

(** X5: a record shorter than the prefix never matches, and the result is
    empty exactly when no record starts with the prefix. *)
Theorem extract_matching_cards_none R p :
  Forall (λ card, (length p ≤ length card)%nat) (extract_matching_cards R p)
  ∧ (extract_matching_cards R p = []
     ↔ Forall (λ card, ¬ p `prefix_of` card) R).
Proof.
  split.
  - apply Forall_forall. intros card H.
    apply extract_matching_cards_elem in H as [_ H].
    by apply startswith_length, startswith_prefix_of.
  - induction R as [|c R IH]; simpl.
    + split; [constructor | done].
    + rewrite Forall_cons. destruct (startswith c p) eqn:E.
      * split; [done|]. intros [H _]. destruct H.
        by apply startswith_prefix_of.
      * rewrite IH. split; [|by intros [_ ?]].
        intros H. split; [|done].
        intros Hp%startswith_prefix_of. congruence.
Qed.

End FilterMore.

(** ** More on loading *)

Section LoaderMore.
Implicit Types (fs : gmap (list N) file) (path t r rest cur last sep : str).
Implicit Types (L R : list str).

Lemma universal_newlines_line_LF r rest :
  one_line r →
  universal_newlines (r ++ LF :: rest) = r ++ LF :: universal_newlines rest.
Proof.
  induction 1 as [|c r Hc Hr IH]; simpl; [done|].
  by rewrite (not_linebreak_not_CR c Hc), IH.
Qed.

Lemma universal_newlines_line_CRLF r rest :
  one_line r →
  universal_newlines (r ++ CR :: LF :: rest)
  = r ++ LF :: universal_newlines rest.
Proof.
  induction 1 as [|c r Hc Hr IH]; simpl; [done|].
  by rewrite (not_linebreak_not_CR c Hc), IH.
Qed.

Lemma universal_newlines_line_CR r rest :
  one_line r → head rest ≠ Some LF →
  universal_newlines (r ++ CR :: rest) = r ++ LF :: universal_newlines rest.
Proof.
  intros Hr Hrest. induction Hr as [|c r Hc Hr IH]; simpl.
  - destruct rest as [|c' rest']; [done|].
    destruct (c' =? LF)%N eqn:E; [|done].
    apply N.eqb_eq in E as ->. by destruct Hrest.
  - by rewrite (not_linebreak_not_CR c Hc), IH.
Qed.

Lemma one_line_no_CR r : one_line r → Forall (λ c, (c =? CR)%N = false) r.
Proof.
  intros H. eapply Forall_impl; [exact H|]. apply not_linebreak_not_CR.
Qed.

Lemma one_line_head r : one_line r → head r ≠ Some LF.
Proof.
  destruct 1 as [|c r Hc _]; simpl; [done|].
  intros [= ->]. discriminate.
Qed.

Lemma join_lines_CR_head L last :
  Forall one_line L → one_line last →
  head (join_lines [CR] L ++ last) ≠ Some LF.
Proof.
  intros HL Hlast. unfold join_lines. destruct HL as [|l L Hl _]; simpl.
  - by apply one_line_head.
  - rewrite <- !app_assoc. destruct Hl as [|c l Hc _]; simpl; [done|].
    intros [= ->]. discriminate.
Qed.

(** Whatever the terminator, the text is read as if it were LF. *)
Lemma universal_newlines_join sep L last :
  sep ∈ [[LF]; [CR]; [CR; LF]] → Forall one_line L → one_line last →
  universal_newlines (join_lines sep L ++ last) = join_lines [LF] L ++ last.
Proof.
  intros Hsep HL Hlast. induction HL as [|l L Hl HL IH].
  - by apply universal_newlines_no_CR, one_line_no_CR.
  - change (join_lines sep (l :: L)) with ((l ++ sep) ++ join_lines sep L).
    change (join_lines [LF] (l :: L)) with ((l ++ [LF]) ++ join_lines [LF] L).
    rewrite <- !app_assoc. simpl. rewrite <- IH.
    repeat (apply elem_of_cons in Hsep as [->|Hsep]); simpl.
    + by apply universal_newlines_line_LF.
    + apply universal_newlines_line_CR; [done|].
      by apply join_lines_CR_head.
    + by apply universal_newlines_line_CRLF.
    + by apply elem_of_nil in Hsep.
Qed.

Lemma splitlines_from_last cur last :
  one_line last →
  splitlines_from cur last
  = match cur ++ last with [] => [] | _ :: _ => [cur ++ last] end.
Proof.
  intros H. revert cur. induction H as [|c r Hc Hr IH]; intros cur; simpl.
  - by rewrite app_nil_r.
  - rewrite (not_linebreak_not_CR c Hc), Hc, IH.
    by rewrite <- app_assoc.
Qed.

Lemma splitlines_join L last :
  Forall one_line L → one_line last →
  splitlines (join_lines [LF] L ++ last)
  = L ++ match last with [] => [] | _ :: _ => [last] end.
Proof.
  intros HL Hlast. unfold splitlines.
  induction HL as [|l L Hl HL IH].
  - by apply splitlines_from_last.
  - change (join_lines [LF] (l :: L)) with ((l ++ [LF]) ++ join_lines [LF] L).
    rewrite <- !app_assoc. simpl. by rewrite splitlines_from_line, IH.
Qed.

Lemma stripped_lines_app L1 L2 :
  stripped_lines (L1 ++ L2) = stripped_lines L1 ++ stripped_lines L2.
Proof.
  unfold stripped_lines. by rewrite List.filter_app, List.map_app.
Qed.

(** X6: the loader takes LF, CR and CR LF alike as line terminators, and a
    last line with no terminator counts like the others: the records are
    the non-empty trimmed lines. *)
Theorem loader_line_endings fs path sep L last :
  sep ∈ [[LF]; [CR]; [CR; LF]] →
  Forall one_line L →
  one_line last →
  read_card_numbers_from_file
    (<[path := Text (join_lines sep L ++ last)]> fs) path
  = Returned (stripped_lines (L ++ [last])).
Proof.
  intros Hsep HL Hlast.
  rewrite (read_text_file _ _ (join_lines sep L ++ last))
    by apply lookup_insert_eq.
  rewrite universal_newlines_join, splitlines_join by done.
  rewrite !stripped_lines_app. by destruct last.
Qed.

Lemma loader_line_endings_witness :
  read_card_numbers_from_file
    {[ lit "cards.txt" :=
         Text (lit " 4000111" ++ [CR; LF] ++ [CR; LF] ++ lit "5000333  "
               ++ [CR; LF] ++ lit "6000444") ]}
    (lit "cards.txt")
  = Returned [lit "4000111"; lit "5000333"; lit "6000444"].
Proof.
  apply (loader_line_endings ∅ (lit "cards.txt") [CR; LF]
           [lit " 4000111"; []; lit "5000333  "] (lit "6000444")).
  - set_solver.
  - repeat constructor.
  - repeat constructor.
Defined.

Lemma universal_newlines_Forall (P : N → Prop) n t :
  (length t ≤ n)%nat → P LF → Forall P t → Forall P (universal_newlines t).
Proof.
  intros Hn HLF. revert t Hn.
  induction n as [|n IH]; intros [|c rest] Hn Ht; simpl in *; try lia;
    try constructor.
  apply Forall_cons in Ht as [Hc Hrest].
  destruct (c =? CR)%N.
  - destruct rest as [|c' rest']; [by repeat constructor|].
    destruct (c' =? LF)%N.
    + constructor; [done|]. apply IH; [simpl in Hn; lia|].
      by apply Forall_cons in Hrest as [_ ?].
    + constructor; [done|]. apply IH; [lia | done].
  - constructor; [done|]. apply IH; [lia | done].
Qed.

Lemma splitlines_from_Forall (P : N → Prop) n t cur :
  (length t ≤ n)%nat → Forall P cur → Forall P t →
  Forall (Forall P) (splitlines_from cur t).
Proof.
  revert t cur. induction n as [|n IH]; intros [|c rest] cur Hn Hcur Ht;
    simpl in *; try lia.
  - destruct cur; [constructor | constructor; [done | constructor]].
  - destruct cur; [constructor | constructor; [done | constructor]].
  - apply Forall_cons in Ht as [Hc Hrest].
    assert (Forall (Forall P) (cur :: splitlines_from [] rest)) as Hgo.
    { constructor; [done|]. apply IH; [lia | constructor | done]. }
    destruct (c =? CR)%N.
    + destruct rest as [|c' rest']; [done|].
      destruct (c' =? LF)%N; [|done].
      constructor; [done|]. apply IH; [simpl in Hn; lia | constructor |].
      by apply Forall_cons in Hrest as [_ ?].
    + destruct (is_linebreak c); [done|].
      apply IH; [lia | | done]. apply Forall_app. by repeat constructor.
Qed.

Lemma lstrip_blank t : Forall (λ c, is_space c = true) t → lstrip t = [].
Proof. induction 1 as [|c t Hc Ht IH]; simpl; [done|]. by rewrite Hc. Qed.

Lemma stripped_lines_blank L :
  Forall (Forall (λ c, is_space c = true)) L → stripped_lines L = [].
Proof.
  unfold stripped_lines. induction 1 as [|l L Hl HL IH]; [done|].
  assert (strip l = []) as Hs by (unfold strip; by rewrite lstrip_blank).
  cbn [List.filter]. by rewrite Hs.
Qed.

Lemma read_blank_text fs path t :
  fs !! path = Some (Text t) →
  Forall (λ c, is_space c = true) t →
  read_card_numbers_from_file fs path = Returned [].
Proof.
  intros Hf Ht. rewrite (read_text_file _ _ t) by done.
  rewrite stripped_lines_blank; [done|].
  apply (splitlines_from_Forall _ (length (universal_newlines t)));
    [done | constructor |].
  by apply (universal_newlines_Forall _ (length t)).
Qed.

(** X7: a file that holds nothing but whitespace and line breaks yields no
    record at all. *)
Theorem loader_blank_file fs path t :
  Forall (λ c, is_space c = true) t →
  read_card_numbers_from_file (<[path := Text t]> fs) path = Returned [].
Proof. apply read_blank_text, lookup_insert_eq. Qed.

Lemma loader_blank_file_witness :
  read_card_numbers_from_file
    {[ lit "cards.txt" := Text (lit "   " ++ [LF; CR; LF; 9%N; 160%N]) ]}
    (lit "cards.txt")
  = Returned [].
Proof.
  apply (loader_blank_file ∅ (lit "cards.txt")
           (lit "   " ++ [LF; CR; LF; 9%N; 160%N])).
  repeat constructor.
Defined.

(** X8: every record the loader hands out is non-empty, has no whitespace
    at either end and holds no line break. *)
Theorem loader_records fs path R :
  read_card_numbers_from_file fs path = Returned R → Forall record R.
Proof. apply read_returns_records. Qed.

Lemma loader_records_witness :
  Forall record [lit "4000111"; lit "5000 333"].
Proof.
  apply (loader_records
           {[ lit "cards.txt" :=
                Text (lit "  4000111 " ++ [LF; LF] ++ lit "5000 333" ++ [CR]) ]}
           (lit "cards.txt")).
  vm_compute; reflexivity.
Defined.

End LoaderMore.

(** ** More on the handlers *)

Section HandlersMore.
Implicit Types (fails : io_point → bool) (doc : Document) (σ : state).

Ltac wp_succeeds Hok :=
  try match goal with
      | H : _ = true |- _ => rewrite Hok in H; discriminate
      end.

Lemma handle_document_run fails doc uid σ name size :
  (∀ p, fails p = false) →
  file_name doc = Some name →
  endswith name (lit ".txt") = true →
  file_size doc = Some size →
  size ≤ 10 * 1024 * 1024 →
  let temp := temp_file_path uid in
  let fs := <[temp := file_content doc]> (files σ) in
  wp (handle_document fails doc uid)
    (λ r σ',
       match read_card_numbers_from_file fs temp with
       | Raised e =>
           r = Returned (ErrorReported e)
           ∧ user_contexts σ' = delete uid (user_contexts σ)
           ∧ files σ' = fs
       | Returned [] =>
           r = Returned EmptyFile
           ∧ user_contexts σ' = user_contexts σ
           ∧ files σ' = fs
       | Returned (c :: R) =>
           match user_contexts σ !! uid with
           | Some (Context p true) =>
               match extract_matching_cards (c :: R) p with
               | [] =>
                   r = Returned (NoMatch p (length (c :: R)))
                   ∧ user_contexts σ' = delete uid (user_contexts σ)
                   ∧ files σ' = fs
               | m :: M =>
                   r = Returned
                         (ResultsSent (results_filename p (m :: M))
                            (results_text (m :: M))
                            (length (m :: M)) (length (c :: R)))
                   ∧ user_contexts σ' = delete uid (user_contexts σ)
                   ∧ files σ'
                     = delete temp (delete (results_filename p (m :: M)) (files σ))
               end
           | _ =>
               r = Returned (Uploaded (length (c :: R)) size)
               ∧ user_contexts σ' = user_contexts σ
               ∧ files σ' = delete temp (files σ)
           end
       end) σ.
Proof.
  intros Hok Hn He Hs Hle temp fs. subst temp fs.
  unfold handle_document, handle_document_body, handle_document_except.
  rewrite Hn, Hs.
  repeat wp_step; wp_tests; wp_succeeds Hok; try congruence; try lia.
  all: simplify_map_eq; repeat split; try done;
    try (symmetry; by apply delete_id);
    apply map_eq; intros k; rewrite !lookup_delete, ?lookup_insert;
    repeat case_decide; congruence.
Qed.

Lemma search_cards_run fails p rest uid σ :
  fails ReplyPrompt = false →
  search_cards fails (p :: rest) uid σ
  = (Returned (PleaseUpload p),
     State (<[uid := Context p true]> (user_contexts σ)) (files σ)).
Proof.
  intros H. unfold search_cards, mbind, M_bind, bind, set_context, external.
  by rewrite H.
Qed.

(** X9: a search followed by the upload of a file with records [R]: the
    answer is the file of the records of [R] that start with the prefix,
    with both counts, or the no-match notice when there is none; either
    way the request is used up and the other actors' requests stay. *)
Theorem search_then_upload fails p rest doc uid σ name size R :
  (∀ q, fails q = false) →
  file_name doc = Some name →
  endswith name (lit ".txt") = true →
  file_size doc = Some size →
  size ≤ 10 * 1024 * 1024 →
  read_card_numbers_from_file
    (<[temp_file_path uid := file_content doc]> (files σ))
    (temp_file_path uid) = Returned R →
  R ≠ [] →
  let σ1 := (search_cards fails (p :: rest) uid σ).2 in
  let found := extract_matching_cards R p in
  (handle_document fails doc uid σ1).1
  = Returned
      (match found with
       | [] => NoMatch p (length R)
       | _ :: _ =>
           ResultsSent (results_filename p found) (results_text found)
             (length found) (length R)
       end)
  ∧ user_contexts (handle_document fails doc uid σ1).2
    = delete uid (user_contexts σ).
Proof.
  intros Hok Hn He Hs Hle HR Hne σ1 found. subst σ1 found.
  rewrite search_cards_run by apply Hok. cbn [snd].
  pose proof (handle_document_run fails doc uid
                (State (<[uid := Context p true]> (user_contexts σ)) (files σ))
                name size Hok Hn He Hs Hle) as H.
  unfold wp in H. cbv zeta in H. cbn [user_contexts files] in H.
  rewrite HR, lookup_insert_eq, delete_insert_eq in H.
  destruct R as [|c R]; [done|].
  destruct (extract_matching_cards (c :: R) p); by destruct H as (-> & -> & _).
Qed.

Lemma search_then_upload_witness :
  let doc := {| file_name := Some (lit "cards.txt"); file_size := Some 24;
                file_content :=
                  Text (lit "4000111" ++ [LF] ++ lit "5000333" ++ [LF]
                        ++ lit "4000222" ++ [LF]) |} in
  let σ1 := (search_cards (λ _, false) [lit "4000"] 7 (State ∅ ∅)).2 in
  (handle_document (λ _, false) doc 7 σ1).1
  = Returned (ResultsSent (lit "cards_4000_2_results.txt")
                (lit "4000111" ++ [LF] ++ lit "4000222" ++ [LF]) 2 3)
  ∧ user_contexts (handle_document (λ _, false) doc 7 σ1).2 = delete 7 ∅.
Proof.
  apply (search_then_upload (λ _, false) (lit "4000") []
           {| file_name := Some (lit "cards.txt"); file_size := Some 24;
              file_content :=
                Text (lit "4000111" ++ [LF] ++ lit "5000333" ++ [LF]
                      ++ lit "4000222" ++ [LF]) |}
           7 (State ∅ ∅) (lit "cards.txt") 24
           [lit "4000111"; lit "5000333"; lit "4000222"]).
  - intros q. reflexivity.
  - reflexivity.
  - vm_compute; reflexivity.
  - reflexivity.
  - lia.
  - vm_compute; reflexivity.
  - discriminate.
Defined.

Ltac wp_negb :=
  repeat match goal with
         | H : negb _ = false |- _ => apply negb_false_iff in H
         end.

Lemma handle_document_not_txt_wp fails doc uid σ name :
  file_name doc = Some name →
  endswith name (lit ".txt") = false →
  wp (handle_document fails doc uid)
    (λ r σ', σ' = σ
             ∧ (fails ReplyProcessing = false → fails EditNotTxt = false →
                r = Returned NotTxt)) σ.
Proof.
  intros Hn He.
  unfold handle_document, handle_document_body, handle_document_except.
  rewrite Hn.
  repeat wp_step; wp_negb; try congruence; split; congruence.
Qed.

(** X10: a document whose name does not end in [.txt] is turned away
    before anything is fetched: the pending requests and the files are
    exactly as before, whatever fails. *)
Theorem handle_document_not_txt fails doc uid σ name :
  file_name doc = Some name →
  endswith name (lit ".txt") = false →
  (handle_document fails doc uid σ).2 = σ
  ∧ (fails ReplyProcessing = false → fails EditNotTxt = false →
     (handle_document fails doc uid σ).1 = Returned NotTxt).
Proof. intros Hn He. by apply (handle_document_not_txt_wp fails doc uid σ name). Qed.

Lemma handle_document_not_txt_witness :
  let σ := State (<[7 := Context (lit "4000") true]> ∅) ∅ in
  let doc := {| file_name := Some (lit "cards.TXT"); file_size := Some 8;
                file_content := Text (lit "4000111") |} in
  (handle_document (λ _, false) doc 7 σ).2 = σ
  ∧ (handle_document (λ _, false) doc 7 σ).1 = Returned NotTxt.
Proof.
  intros σ doc.
  destruct (handle_document_not_txt (λ _, false) doc 7 σ (lit "cards.TXT"))
    as [H1 H2]; [reflexivity | vm_compute; reflexivity |].
  split; [exact H1 | by apply H2].
Defined.

Lemma handle_document_too_large_wp fails doc uid σ name size :
  file_name doc = Some name →
  endswith name (lit ".txt") = true →
  file_size doc = Some size →
  10 * 1024 * 1024 < size →
  fails ReplyProcessing = false →
  fails EditTooLarge = false →
  wp (handle_document fails doc uid)
    (λ r σ', r = Returned TooLarge ∧ σ' = σ) σ.
Proof.
  intros Hn He Hs Hlt H1 H2.
  unfold handle_document, handle_document_body, handle_document_except.
  rewrite Hn, Hs.
  repeat wp_step; wp_tests; try congruence; try lia; done.
Qed.

(** X11: a document declared larger than 10 MB is refused on its declared
    size alone: it is not downloaded, and the pending requests and the
    files stay as they were. *)
Theorem handle_document_too_large fails doc uid σ name size :
  file_name doc = Some name →
  endswith name (lit ".txt") = true →
  file_size doc = Some size →
  10 * 1024 * 1024 < size →
  fails ReplyProcessing = false →
  fails EditTooLarge = false →
  (handle_document fails doc uid σ).1 = Returned TooLarge
  ∧ (handle_document fails doc uid σ).2 = σ.
Proof.
  intros Hn He Hs Hlt H1 H2.
  by apply (handle_document_too_large_wp fails doc uid σ name size).
Qed.

Lemma handle_document_too_large_witness :
  let σ := State (<[7 := Context (lit "4000") true]> ∅) ∅ in
  let doc := {| file_name := Some (lit "cards.txt");
                file_size := Some 10485761;
                file_content := Text (lit "4000111") |} in
  (handle_document (λ _, false) doc 7 σ).1 = Returned TooLarge
  ∧ (handle_document (λ _, false) doc 7 σ).2 = σ.
Proof.
  intros σ doc.
  apply (handle_document_too_large (λ _, false) doc 7 σ (lit "cards.txt")
           10485761).
  - reflexivity.
  - vm_compute; reflexivity.
  - reflexivity.
  - lia.
  - reflexivity.
  - reflexivity.
Defined.

Lemma handle_document_returns_wp fails doc uid σ name :
  file_name doc = Some name →
  fails ReplyProcessing = false →
  fails EditNotTxt = false →
  fails EditError = false →
  wp (handle_document fails doc uid) (λ r _, ∃ reply, r = Returned reply) σ.
Proof.
  intros Hn H1 H2 H3.
  unfold handle_document, handle_document_body, handle_document_except.
  rewrite Hn.
  repeat wp_step; try congruence; simplify_eq/=; eauto.
Qed.

(** X12: nothing raised inside the [try] leaves the handler: when the
    first reply and the error notice can be sent, the handler ends with a
    reply, whatever else fails and whatever the document holds. *)
Theorem handle_document_returns fails doc uid σ name :
  file_name doc = Some name →
  fails ReplyProcessing = false →
  fails EditNotTxt = false →
  fails EditError = false →
  ∃ reply, (handle_document fails doc uid σ).1 = Returned reply.
Proof.
  intros Hn H1 H2 H3.
  by apply (handle_document_returns_wp fails doc uid σ name).
Qed.

Lemma handle_document_returns_witness :
  ∃ reply,
    (handle_document
       (λ p, match p with GetFile => true | _ => false end)
       {| file_name := Some (lit "cards.txt"); file_size := None;
          file_content := Binary |}
       7 (State ∅ ∅)).1 = Returned reply.
Proof.
  apply (handle_document_returns
           (λ p, match p with GetFile => true | _ => false end)
           {| file_name := Some (lit "cards.txt"); file_size := None;
              file_content := Binary |}
           7 (State ∅ ∅) (lit "cards.txt")); reflexivity.
Defined.

Lemma handle_document_contexts_wp fails doc uid σ :
  wp (handle_document fails doc uid)
    (λ _ σ', user_contexts σ' = user_contexts σ
             ∨ user_contexts σ' = delete uid (user_contexts σ)) σ.
Proof.
  unfold handle_document, handle_document_body, handle_document_except.
  repeat wp_step; simplify_map_eq; auto.
Qed.

(** X13: an upload never adds or alters a pending request: afterwards the
    map is the one before, or the one before without the uploader's
    entry. *)
Theorem handle_document_contexts fails doc uid σ :
  user_contexts (handle_document fails doc uid σ).2 = user_contexts σ
  ∨ user_contexts (handle_document fails doc uid σ).2
    = delete uid (user_contexts σ).
Proof. apply (handle_document_contexts_wp fails doc uid σ). Qed.

Lemma handle_document_waiting_wp fails doc uid σ :
  (∀ u c, user_contexts σ !! u = Some c → waiting_for_file c = true) →
  wp (handle_document fails doc uid)
    (λ _ σ', ∀ u c, user_contexts σ' !! u = Some c →
                    waiting_for_file c = true) σ.
Proof.
  intros Hinv.
  unfold handle_document, handle_document_body, handle_document_except.
  repeat wp_step; intros u c' Hu;
    repeat (apply lookup_delete_Some in Hu as [_ Hu]); by eapply Hinv.
Qed.

Lemma search_cards_waiting_wp fails args uid σ :
  (∀ u c, user_contexts σ !! u = Some c → waiting_for_file c = true) →
  wp (search_cards fails args uid)
    (λ _ σ', ∀ u c, user_contexts σ' !! u = Some c →
                    waiting_for_file c = true) σ.
Proof.
  intros Hinv. unfold search_cards.
  repeat wp_step; intros u c' Hu;
    try (apply lookup_insert_Some in Hu as [[_ <-]|[_ Hu]]; [done|]);
    by eapply Hinv.
Qed.

(** X14: the flag [waiting_for_file] is never stored false: if every
    entry of the map has it set, so has every entry after a search command
    and after an upload.  An actor is thus awaiting a file exactly when
    the map has an entry for it. *)
Theorem waiting_for_file_invariant fails args doc uid σ :
  (∀ u c, user_contexts σ !! u = Some c → waiting_for_file c = true) →
  (∀ u c, user_contexts (search_cards fails args uid σ).2 !! u = Some c →
          waiting_for_file c = true)
  ∧ (∀ u c, user_contexts (handle_document fails doc uid σ).2 !! u = Some c →
            waiting_for_file c = true).
Proof.
  intros Hinv. split.
  - by apply (search_cards_waiting_wp fails args uid σ).
  - by apply (handle_document_waiting_wp fails doc uid σ).
Qed.

Lemma waiting_for_file_invariant_witness :
  ∃ c,
    user_contexts
      (search_cards (λ _, false) [lit "4000"] 7
         (State (<[8 := Context (lit "5000") true]> ∅) ∅)).2 !! 7 = Some c
    ∧ waiting_for_file c = true.
Proof.
  exists (Context (lit "4000") true).
  assert (user_contexts
            (search_cards (λ _, false) [lit "4000"] 7
               (State (<[8 := Context (lit "5000") true]> ∅) ∅)).2 !! 7
          = Some (Context (lit "4000") true)) as Hl
    by (vm_compute; reflexivity).
  split; [exact Hl|].
  refine (proj1 (waiting_for_file_invariant (λ _, false) [lit "4000"]
                   {| file_name := None; file_size := None;
                      file_content := Binary |}
                   7 (State (<[8 := Context (lit "5000") true]> ∅) ∅) _)
            7 _ Hl).
  cbn [user_contexts].
  intros u c [[_ <-]|[_ H]]%lookup_insert_Some; [reflexivity|].
  by rewrite lookup_empty in H.
Defined.

(** X15: the downloaded copy is removed once results are sent or a plain
    upload is acknowledged, together with the results file; after the
    empty-file, no-match and error replies it is left on disk. *)
Theorem handle_document_temp_file fails doc uid σ name size reply :
  (∀ p, fails p = false) →
  file_name doc = Some name →
  endswith name (lit ".txt") = true →
  file_size doc = Some size →
  size ≤ 10 * 1024 * 1024 →
  (handle_document fails doc uid σ).1 = Returned reply →
  match reply with
  | ResultsSent filename _ _ _ =>
      files (handle_document fails doc uid σ).2
      = delete (temp_file_path uid) (delete filename (files σ))
  | Uploaded _ _ =>
      files (handle_document fails doc uid σ).2
      = delete (temp_file_path uid) (files σ)
  | _ =>
      files (handle_document fails doc uid σ).2
      = <[temp_file_path uid := file_content doc]> (files σ)
  end.
Proof.
  intros Hok Hn He Hs Hle Hr.
  pose proof (handle_document_run fails doc uid σ name size
                Hok Hn He Hs Hle) as H.
  unfold wp in H. cbv zeta in H.
  repeat match type of H with
         | context [match ?x with _ => _ end] => destruct x eqn:?
         end;
    destruct H as (H1 & _ & H3); rewrite H1 in Hr;
    injection Hr as <-; exact H3.
Qed.

Lemma handle_document_temp_file_witness :
  let σ := State (<[7 := Context (lit "9999") true]> ∅) ∅ in
  let doc := {| file_name := Some (lit "cards.txt"); file_size := Some 8;
                file_content := Text (lit "4000111" ++ [LF]) |} in
  files (handle_document (λ _, false) doc 7 σ).2
  = <[temp_file_path 7 := Text (lit "4000111" ++ [LF])]> ∅.
Proof.
  intros σ doc.
  apply (handle_document_temp_file (λ _, false) doc 7 σ (lit "cards.txt") 8
           (NoMatch (lit "9999") 1)).
  - intros p. reflexivity.
  - reflexivity.
  - vm_compute; reflexivity.
  - reflexivity.
  - lia.
  - vm_compute; reflexivity.
Defined.

(** X16: an upload that is not text in the locale's encoding makes the
    loader raise; the handler reports the error and drops the uploader's
    pending request. *)
Theorem handle_document_binary fails doc uid σ name size :
  (∀ p, fails p = false) →
  file_name doc = Some name →
  endswith name (lit ".txt") = true →
  file_size doc = Some size →
  size ≤ 10 * 1024 * 1024 →
  file_content doc = Binary →
  (handle_document fails doc uid σ).1
  = Returned (ErrorReported "UnicodeDecodeError")
  ∧ user_contexts (handle_document fails doc uid σ).2
    = delete uid (user_contexts σ).
Proof.
  intros Hok Hn He Hs Hle Hb.
  pose proof (handle_document_run fails doc uid σ name size
                Hok Hn He Hs Hle) as H.
  unfold wp in H. cbv zeta in H.
  rewrite Hb, read_binary_file in H by apply lookup_insert_eq.
  by destruct H as (-> & -> & _).
Qed.

Lemma handle_document_binary_witness :
  let σ := State (<[7 := Context (lit "4000") true]> ∅) ∅ in
  let doc := {| file_name := Some (lit "cards.txt"); file_size := Some 8;
                file_content := Binary |} in
  (handle_document (λ _, false) doc 7 σ).1
  = Returned (ErrorReported "UnicodeDecodeError")
  ∧ user_contexts (handle_document (λ _, false) doc 7 σ).2
    = delete 7 (<[7 := Context (lit "4000") true]> ∅).
Proof.
  intros σ doc.
  apply (handle_document_binary (λ _, false) doc 7 σ (lit "cards.txt") 8).
  - intros p. reflexivity.
  - reflexivity.
  - vm_compute; reflexivity.
  - reflexivity.
  - lia.
  - reflexivity.
Defined.

(** X17: an upload from an actor with no pending request is only
    acknowledged, with the number of records and the declared size: no
    search is run and the map of requests is left alone. *)
Theorem handle_document_plain_upload fails doc uid σ name size R :
  (∀ p, fails p = false) →
  file_name doc = Some name →
  endswith name (lit ".txt") = true →
  file_size doc = Some size →
  size ≤ 10 * 1024 * 1024 →
  user_contexts σ !! uid = None →
  read_card_numbers_from_file
    (<[temp_file_path uid := file_content doc]> (files σ))
    (temp_file_path uid) = Returned R →
  R ≠ [] →
  (handle_document fails doc uid σ).1 = Returned (Uploaded (length R) size)
  ∧ user_contexts (handle_document fails doc uid σ).2 = user_contexts σ.
Proof.
  intros Hok Hn He Hs Hle Hnone HR Hne.
  pose proof (handle_document_run fails doc uid σ name size
                Hok Hn He Hs Hle) as H.
  unfold wp in H. cbv zeta in H. rewrite HR, Hnone in H.
  destruct R as [|c R]; [done|]. by destruct H as (-> & -> & _).
Qed.

Lemma handle_document_plain_upload_witness :
  let σ := State (<[8 := Context (lit "4000") true]> ∅) ∅ in
  let doc := {| file_name := Some (lit "cards.txt"); file_size := Some 16;
                file_content := Text (lit "4000111" ++ [LF] ++ lit "5000333")
             |} in
  (handle_document (λ _, false) doc 7 σ).1 = Returned (Uploaded 2 16)
  ∧ user_contexts (handle_document (λ _, false) doc 7 σ).2 = user_contexts σ.
Proof.
  intros σ doc.
  apply (handle_document_plain_upload (λ _, false) doc 7 σ (lit "cards.txt")
           16 [lit "4000111"; lit "5000333"]).
  - intros p. reflexivity.
  - reflexivity.
  - vm_compute; reflexivity.
  - reflexivity.
  - lia.
  - vm_compute; reflexivity.
  - vm_compute; reflexivity.
  - discriminate.
Defined.

Lemma search_cards_effects_wp fails args uid σ :
  wp (search_cards fails args uid)
    (λ _ σ', files σ' = files σ
             ∧ (∀ B, B ≠ uid →
                     user_contexts σ' !! B = user_contexts σ !! B)
             ∧ (args = [] → user_contexts σ' = user_contexts σ)) σ.
Proof.
  unfold search_cards.
  repeat wp_step; repeat split; try done;
    intros B HB; by rewrite lookup_insert_ne.
Qed.

(** X18: a search command touches nothing but the sender's entry: the
    files and every other actor's request are as before, and a command
    with no argument changes no entry at all. *)
Theorem search_cards_effects fails args uid σ :
  files (search_cards fails args uid σ).2 = files σ
  ∧ (∀ B, B ≠ uid →
          user_contexts (search_cards fails args uid σ).2 !! B
          = user_contexts σ !! B)
  ∧ (args = [] →
     user_contexts (search_cards fails args uid σ).2 = user_contexts σ).
Proof. apply (search_cards_effects_wp fails args uid σ). Qed.

Lemma search_cards_effects_witness :
  let σ := State (<[8 := Context (lit "5000") true]> ∅) ∅ in
  user_contexts (search_cards (λ _, false) [lit "4000"] 7 σ).2 !! 8
  = Some (Context (lit "5000") true)
  ∧ user_contexts (search_cards (λ _, false) [] 7 σ).2 = user_contexts σ.
Proof.
  intros σ. split.
  - destruct (search_cards_effects (λ _, false) [lit "4000"] 7 σ)
      as (_ & H & _).
    rewrite H by lia. vm_compute; reflexivity.
  - destruct (search_cards_effects (λ _, false) [] 7 σ) as (_ & _ & H).
    by apply H.
Defined.

End HandlersMore.

(** ** More on the statistics *)

Section StatisticsMore.
Implicit Types (d : list (str * nat)) (cards more P : list str) (q k : str).
Implicit Types (fs : gmap (list N) file).

Lemma sum_dict_set d k n :
  sum_list (dict_set d k (dict_get d k 0 + n)).*2 = (sum_list d.*2 + n)%nat.
Proof.
  induction d as [|[k' v'] d IH]; simpl; [lia|].
  destruct (decide (k' = k)) as [->|Hne]; simpl; [lia|].
  change (list_fmap _ _ snd ?l) with (l.*2). rewrite IH. lia.
Qed.

Lemma sum_counted P d :
  sum_list (fold_left count_prefix P d).*2 = (sum_list d.*2 + length P)%nat.
Proof.
  revert d. induction P as [|x P IH]; intros d; simpl; [lia|].
  rewrite IH. unfold count_prefix. rewrite sum_dict_set. lia.
Qed.

Lemma analysed_prefixes_length cards :
  length (analysed_prefixes cards)
  = length (List.filter (λ card, (4 <=? length card)%nat) (take 5000 cards)).
Proof. unfold analysed_prefixes. apply length_map. Qed.

Lemma analysed_prefixes_bound cards :
  (length (analysed_prefixes cards) ≤ 5000)%nat
  ∧ (length (analysed_prefixes cards) ≤ length cards)%nat.
Proof.
  rewrite analysed_prefixes_length.
  pose proof (List.filter_length_le
                (λ card, (4 <=? length card)%nat) (take 5000 cards)) as H.
  rewrite length_take in H. lia.
Qed.

Lemma analysed_prefixes_four cards q :
  q ∈ analysed_prefixes cards → length q = 4%nat.
Proof.
  unfold analysed_prefixes.
  rewrite list_elem_of_In, in_map_iff. intros (card & <- & Hc).
  apply filter_In in Hc as [_ Hc]. apply Nat.leb_le in Hc.
  rewrite length_take. lia.
Qed.

(** The full ranking the statistics are cut from. *)
Lemma ranking_facts cards :
  let ranking := sorted_by_count (prefix_counts cards) in
  NoDup ranking.*1
  ∧ (∀ q n, (q, n) ∈ ranking
            ↔ n = occurrences q (analysed_prefixes cards) ∧ (0 < n)%nat)
  ∧ StronglySorted (ranks_before (analysed_prefixes cards)) ranking.
Proof.
  cbv zeta. rewrite prefix_counts_fold.
  set (P := analysed_prefixes cards).
  destruct (counted_prefixes P) as (Hnd & _ & _ & Hsorted).
  split; [|split].
  - by rewrite sorted_by_count_perm.
  - intros q n. rewrite sorted_by_count_perm. apply counted_prefixes_elem.
  - apply (sorted_by_count_stable (met_before P)).
    by apply StronglySorted_keys in Hsorted.
Qed.

(** X19: the counts of the statistics add up to the number of records,
    among the first 5000, that have at least four characters; so to at
    most 5000, however long the file. *)
Theorem prefix_counts_total cards :
  sum_list (prefix_counts cards).*2
  = length (List.filter (λ card, (4 <=? length card)%nat) (take 5000 cards))
  ∧ (sum_list (prefix_counts cards).*2 ≤ 5000)%nat.
Proof.
  rewrite prefix_counts_fold, sum_counted, analysed_prefixes_length. simpl.
  split; [done|].
  rewrite <- analysed_prefixes_length. apply analysed_prefixes_bound.
Qed.

(** X20: records after the 5000th play no part in the prefix statistics:
    appending to a list of at least 5000 records changes neither the
    counts nor the top prefixes. *)
Theorem stats_ignore_beyond_cap cards more :
  (5000 ≤ length cards)%nat →
  prefix_counts (cards ++ more) = prefix_counts cards
  ∧ top_prefixes (cards ++ more) = top_prefixes cards.
Proof.
  intros H.
  assert (prefix_counts (cards ++ more) = prefix_counts cards) as Hp.
  { unfold prefix_counts, prefix_counts_upto. by rewrite take_app_le. }
  split; [done|].
  unfold top_prefixes, top_prefixes_upto. by rewrite Hp.
Qed.

Lemma stats_ignore_beyond_cap_witness :
  top_prefixes (replicate 5000 (lit "4000111") ++ replicate 3 (lit "5000222"))
  = [(lit "4000", 5000%nat)].
Proof.
  destruct (stats_ignore_beyond_cap (replicate 5000 (lit "4000111"))
              (replicate 3 (lit "5000222"))) as [_ ->].
  - rewrite length_replicate. lia.
  - vm_compute; reflexivity.
Defined.

(** X21: the list of top prefixes has at most ten entries, each a
    different prefix of exactly four code points with a count of at least
    one. *)
Theorem top_prefixes_shape cards :
  (length (top_prefixes cards) ≤ 10)%nat
  ∧ NoDup (top_prefixes cards).*1
  ∧ Forall (λ x, length x.1 = 4%nat ∧ (0 < x.2)%nat) (top_prefixes cards).
Proof.
  destruct (ranking_facts cards) as (Hnd & Helem & _).
  unfold top_prefixes, top_prefixes_upto. split; [|split].
  - rewrite length_take. lia.
  - rewrite fmap_take. eapply sublist_NoDup; [exact Hnd | apply sublist_take].
  - apply Forall_forall. intros [q n] Hin.
    apply subseteq_take, Helem in Hin as [-> Hpos]. split; [|done].
    by apply (analysed_prefixes_four cards), occurrences_pos.
Qed.

(** X22: no prefix left out of the top list is more frequent than one in
    it. *)
Theorem top_prefixes_dominate cards q n q' :
  (q, n) ∈ top_prefixes cards →
  q' ∉ (top_prefixes cards).*1 →
  (occurrences q' (analysed_prefixes cards) ≤ n)%nat.
Proof.
  destruct (ranking_facts cards) as (_ & Helem & Hsorted).
  unfold top_prefixes, top_prefixes_upto.
  set (ranking := sorted_by_count (prefix_counts cards)) in *.
  intros Hin Hout.
  destruct (decide (occurrences q' (analysed_prefixes cards) = 0)%nat)
    as [->|Hpos]; [lia|].
  assert ((q', occurrences q' (analysed_prefixes cards)) ∈ ranking) as Hq'.
  { apply Helem. split; [done | lia]. }
  rewrite <- (take_drop 10 ranking) in Hq', Hsorted.
  apply elem_of_app in Hq' as [Hq'|Hq'].
  - destruct Hout. apply list_elem_of_fmap.
    by exists (q', occurrences q' (analysed_prefixes cards)).
  - apply StronglySorted_app in Hsorted as (Hlt & _ & _).
    destruct (Hlt _ _ Hin Hq') as [?|[? _]]; simpl in *; lia.
Qed.

Lemma top_prefixes_dominate_witness :
  (occurrences (lit "1009")
     (analysed_prefixes
        [lit "4000a"; lit "1000a"; lit "1001a"; lit "1002a"; lit "1003a";
         lit "1004a"; lit "1005a"; lit "1006a"; lit "1007a"; lit "1008a";
         lit "1009a"; lit "4000b"])
   ≤ 2)%nat.
Proof.
  apply (top_prefixes_dominate _ (lit "4000") 2 (lit "1009")).
  - vm_compute. apply list_elem_of_here.
  - vm_compute. intros H. repeat (apply elem_of_cons in H as [H|H]; [done|]).
    by apply elem_of_nil in H.
Defined.

End StatisticsMore.

Section StatsReply.
Implicit Types (d : list (str * nat)) (cards : list str).
Implicit Types (fs : gmap (list N) file).

Lemma length_le_sum d :
  Forall (λ x, (0 < x.2)%nat) d → (length d ≤ sum_list d.*2)%nat.
Proof.
  induction 1 as [|[q n] d Hx Hd IH]; [done|].
  rewrite fmap_cons. simpl in Hx. simpl. lia.
Qed.

Lemma prefix_counts_unique cards :
  (length (prefix_counts cards) ≤ length (analysed_prefixes cards))%nat.
Proof.
  rewrite prefix_counts_fold.
  pose proof (sum_counted (analysed_prefixes cards) []) as Hsum.
  simpl in Hsum. rewrite <- Hsum. apply length_le_sum.
  apply Forall_forall. intros [q n] Hin.
  by apply counted_prefixes_elem in Hin as [_ ?].
Qed.

(** X23: what the statistics reply holds: the total is the number of
    records loaded, at least one; the number of unique prefixes is at
    most the total and at most 5000; and the top list has ten entries, or
    all the prefixes when there are fewer.  The loader's exception, if
    any, is passed on. *)
Theorem stats_command_reply fs :
  match stats_command fs with
  | Returned NoDatabase =>
      read_card_numbers_from_file fs (lit "card_numbers.txt") = Returned []
  | Returned (Statistics total unique top) =>
      ∃ cards,
        read_card_numbers_from_file fs (lit "card_numbers.txt")
        = Returned cards
        ∧ total = length cards
        ∧ (0 < total)%nat
        ∧ (unique ≤ total)%nat ∧ (unique ≤ 5000)%nat
        ∧ length top = min 10 unique
  | Raised e =>
      read_card_numbers_from_file fs (lit "card_numbers.txt") = Raised e
  end.
Proof.
  unfold stats_command.
  destruct (read_card_numbers_from_file fs (lit "card_numbers.txt"))
    as [[|c cards]|e]; [done| |done].
  exists (c :: cards).
  pose proof (prefix_counts_unique (c :: cards)) as Hu.
  pose proof (analysed_prefixes_bound (c :: cards)) as [H1 H2].
  repeat split; try done; try lia; try (simpl; lia).
  unfold top_prefixes, top_prefixes_upto.
  by rewrite length_take, sorted_by_count_perm.
Qed.

(** X24: with no [card_numbers.txt], or with one that holds only
    whitespace and line breaks, the statistics command answers that there
    is no database. *)
Theorem stats_command_no_database fs :
  fs !! lit "card_numbers.txt" = None
  ∨ (∃ t, fs !! lit "card_numbers.txt" = Some (Text t)
          ∧ Forall (λ c, is_space c = true) t) →
  stats_command fs = Returned NoDatabase.
Proof.
  unfold stats_command. intros [H|(t & H & Ht)].
  - by rewrite read_missing_file.
  - by rewrite (read_blank_text _ _ t).
Qed.

Lemma stats_command_no_database_witness :
  stats_command ∅ = Returned NoDatabase
  ∧ stats_command {[ lit "card_numbers.txt" := Text (lit "  " ++ [LF; LF]) ]}
    = Returned NoDatabase.
Proof.
  split.
  - apply (stats_command_no_database ∅). left. apply lookup_empty.
  - apply (stats_command_no_database
             {[ lit "card_numbers.txt" := Text (lit "  " ++ [LF; LF]) ]}).
    right. exists (lit "  " ++ [LF; LF]).
    split; [apply lookup_singleton_eq | repeat constructor].
Defined.

End StatsReply.

(** ** The temporary files *)

Section TempFiles.
Implicit Types (fails : io_point → bool) (doc : Document) (σ : state).

Lemma lit_inj s1 s2 : lit s1 = lit s2 → s1 = s2.
Proof.
  unfold lit. intros H.
  rewrite <- (string_of_list_ascii_of_string s1),
          <- (string_of_list_ascii_of_string s2).
  f_equal. revert H.
  generalize (list_ascii_of_string s1) (list_ascii_of_string s2).
  induction l as [|a l IH]; intros [|b l']; simpl; try done.
  intros [= Hab Hl]. f_equal; [|by apply IH].
  by rewrite <- (ascii_N_embedding a), <- (ascii_N_embedding b), Hab.
Qed.

Lemma temp_file_path_inj A B : temp_file_path A = temp_file_path B → A = B.
Proof.
  unfold temp_file_path. intros H.
  apply app_inv_head, app_inv_tail, lit_inj in H.
  by apply (inj pretty) in H.
Qed.

Lemma results_filename_not_temp p M B :
  results_filename p M ≠ temp_file_path B.
Proof. unfold results_filename, temp_file_path. simpl. discriminate. Qed.

Lemma handle_document_temp_other_wp fails doc A B σ :
  A ≠ B →
  wp (handle_document fails doc A)
    (λ _ σ', files σ' !! temp_file_path B = files σ !! temp_file_path B) σ.
Proof.
  intros Hne.
  assert (temp_file_path A ≠ temp_file_path B) as Ht
    by (by intros ?%temp_file_path_inj).
  unfold handle_document, handle_document_body, handle_document_except.
  repeat wp_step;
    rewrite ?lookup_delete_ne, ?lookup_insert_ne
      by (done || apply results_filename_not_temp);
    done.
Qed.

(** X25: each actor has a temporary file of its own: two actors never
    share its name, and an upload from one neither writes nor removes the
    other's. *)
Theorem handle_document_temp_other fails doc A B σ :
  A ≠ B →
  temp_file_path A ≠ temp_file_path B
  ∧ files (handle_document fails doc A σ).2 !! temp_file_path B
    = files σ !! temp_file_path B.
Proof.
  intros Hne. split; [by intros ?%temp_file_path_inj|].
  by apply (handle_document_temp_other_wp fails doc A B σ).
Qed.

Lemma handle_document_temp_other_witness :
  let σ := State (<[7 := Context (lit "4000") true]> ∅)
                 (<[temp_file_path 8 := Text (lit "5000333")]> ∅) in
  let doc := {| file_name := Some (lit "cards.txt"); file_size := Some 8;
                file_content := Text (lit "4000111") |} in
  temp_file_path 7 ≠ temp_file_path 8
  ∧ files (handle_document (λ _, false) doc 7 σ).2 !! temp_file_path 8
    = files σ !! temp_file_path 8.
Proof.
  intros σ doc.
  apply (handle_document_temp_other (λ _, false) doc 7 8 σ). lia.
Defined.

End TempFiles.

(** ** Results and repeated uploads *)

Section Results.
Implicit Types (fails : io_point → bool) (doc : Document) (σ : state).
Implicit Types (fs : gmap (list N) file).

Lemma read_insert_only fs fs' path f :
  read_card_numbers_from_file (<[path := f]> fs) path
  = read_card_numbers_from_file (<[path := f]> fs') path.
Proof.
  unfold read_card_numbers_from_file, open_read.
  by rewrite !lookup_insert_eq.
Qed.




(** X27: one search serves one upload: once a search has been answered,
    with results or with the no-match notice, the same file sent again is
    only acknowledged as a plain upload. *)
Theorem second_upload_is_plain fails p rest doc uid σ name size R :
  (∀ q, fails q = false) →
  file_name doc = Some name →
  endswith name (lit ".txt") = true →
  file_size doc = Some size →
  size ≤ 10 * 1024 * 1024 →
  read_card_numbers_from_file
    (<[temp_file_path uid := file_content doc]> (files σ))
    (temp_file_path uid) = Returned R →
  R ≠ [] →
  let σ1 := (search_cards fails (p :: rest) uid σ).2 in
  let σ2 := (handle_document fails doc uid σ1).2 in
  (handle_document fails doc uid σ2).1 = Returned (Uploaded (length R) size)
  ∧ user_contexts (handle_document fails doc uid σ2).2
    = delete uid (user_contexts σ).
Proof.
  intros Hok Hn He Hs Hle HR Hne σ1 σ2.
  assert (user_contexts σ2 = delete uid (user_contexts σ)) as Hσ2.
  { subst σ2 σ1. rewrite search_cards_run by apply Hok. cbn [snd].
    pose proof (handle_document_run fails doc uid
                  (State (<[uid := Context p true]> (user_contexts σ))
                     (files σ))
                  name size Hok Hn He Hs Hle) as H.
    unfold wp in H. cbv zeta in H. cbn [user_contexts files] in H.
    rewrite HR, lookup_insert_eq, delete_insert_eq in H.
    destruct R as [|c R]; [done|].
    destruct (extract_matching_cards (c :: R) p);
      by destruct H as (_ & -> & _). }
  pose proof (handle_document_run fails doc uid σ2 name size
                Hok Hn He Hs Hle) as H.
  unfold wp in H. cbv zeta in H.
  rewrite (read_insert_only _ (files σ)), HR, Hσ2, lookup_delete_eq in H.
  destruct R as [|c R]; [done|]. by destruct H as (-> & -> & _).
Qed.

Lemma second_upload_is_plain_witness :
  let doc := {| file_name := Some (lit "cards.txt"); file_size := Some 16;
                file_content := Text (lit "4000111" ++ [LF] ++ lit "5000333")
             |} in
  let σ1 := (search_cards (λ _, false) [lit "4000"] 7 (State ∅ ∅)).2 in
  let σ2 := (handle_document (λ _, false) doc 7 σ1).2 in
  (handle_document (λ _, false) doc 7 σ2).1 = Returned (Uploaded 2 16)
  ∧ user_contexts (handle_document (λ _, false) doc 7 σ2).2 = delete 7 ∅.
Proof.
  apply (second_upload_is_plain (λ _, false) (lit "4000") []
           {| file_name := Some (lit "cards.txt"); file_size := Some 16;
              file_content := Text (lit "4000111" ++ [LF] ++ lit "5000333")
           |} 7 (State ∅ ∅) (lit "cards.txt") 16
           [lit "4000111"; lit "5000333"]).
  - intros q. reflexivity.
  - reflexivity.
  - vm_compute; reflexivity.
  - reflexivity.
  - lia.
  - vm_compute; reflexivity.
  - discriminate.
Defined.

End Results.
